(** * leetFeedback extension: session timer, attempt tracker and sync pipeline

    A shallow embedding of the parts of the extension that keep state:

    - [ProblemTimer]   (src/utils/problem-timer.js): active-time accounting,
      visibility tracking and the read-merge-write persistence of the timer
      fields;
    - [GeminiAPI]      (src/unnamed/part_000): the mistake-analysis client and
      its failure handling;
    - [TakeUforward]   (src/content-scripts/takeuforward.js): the message
      listener that classifies run and submit events, the sticky write of the
      problem record and the pipeline run on a successful submission.

    JavaScript numbers are integers [Z] (millisecond clocks and counters),
    strings are [string], objects kept in [chrome.storage] are finite maps
    from property names to [jsval]. A handler is run to completion before
    the next event is delivered, except for the visibility listener of the
    timer, which is split at its [await]: events can be delivered while it
    waits there. *)

From stdpp Require Import gmap strings list fin_maps pretty.
From Stdlib Require Import ZArith Lia Ascii.

Set Warnings "-register-all".
#[local] Open Scope Z_scope.

(* ===================================================================== *)
(** * JavaScript values *)
(* ===================================================================== *)

(** The JSON-like values that end up in [chrome.storage]. A property that is
    absent ([undefined]) is a failed lookup, so it has no constructor. *)
Inductive jsval : Type :=
| JNull
| JBool (b : bool)
| JNum (n : Z)
| JStr (s : string)
| JArr (l : list jsval)
| JObj (m : gmap string jsval).

(** Truthiness, as used by [!x], [x || y] and [if (x)]. *)
Definition truthy (v : jsval) : bool :=
  match v with
  | JNull => false
  | JBool b => b
  | JNum n => negb (n =? 0)
  | JStr s => negb (String.eqb s "")
  | JArr _ | JObj _ => true
  end.

(** [undefined] is falsy. *)
Definition truthy_opt (o : option jsval) : bool :=
  match o with Some v => truthy v | None => false end.

(** [a || d] when [d] is a value. *)
Definition or_val (a : option jsval) (d : jsval) : jsval :=
  if truthy_opt a then default d a else d.

(** [a ?? d]: only [null] and [undefined] fall through. *)
Definition nullish_val (a : option jsval) (d : jsval) : jsval :=
  match a with
  | None | Some JNull => d
  | Some v => v
  end.

(** [o.k] on a value: primitives, [null] and arrays have none of the named
    properties read by the extension. *)
Definition prop (k : string) (o : option jsval) : option jsval :=
  match o with
  | Some (JObj m) => m !! k
  | _ => None
  end.

(** A number that may be [null]: truthy when present and non-zero. *)
Definition truthy_num (o : option Z) : bool :=
  match o with Some n => negb (n =? 0) | None => false end.

(** [Number(null) = 0]: the value a nullable number has in arithmetic. *)
Definition to_number (o : option Z) : Z := default 0 o.

Definition num_val (o : option Z) : jsval :=
  match o with Some n => JNum n | None => JNull end.

(** Reading back a field that holds a number or nothing; the timer fields of
    a stored record are only ever written as numbers or [null]. *)
Definition as_number (v : option jsval) : option Z :=
  match v with Some (JNum n) => Some n | _ => None end.

(** [n || d] on numbers. *)
Definition num_or (n d : Z) : Z := if n =? 0 then d else n.

Definition truthy_str (s : string) : bool := negb (String.eqb s "").

Definition str_or (a b : string) : string := if truthy_str a then a else b.

Definition strs_val (l : list string) : jsval := JArr (JStr <$> l).

(** [s.length] as a JavaScript number. *)
Definition str_length (s : string) : Z := Z.of_nat (String.length s).

(* ===================================================================== *)
(** * chrome.storage *)
(* ===================================================================== *)

(** The object stored under [problem_data_<key>]. *)
Abbreviation record := (gmap string jsval).

(** The value of [tuf_code_data]. *)
Record code_data : Type := CodeData {
  cd_SELECTED_LANGUAGE : string;
  cd_PUBLIC_CODE : string;
  cd_PROBLEM_SLUG : string;
  cd_timestamp : Z
}.

(** The keys of [chrome.storage.local] and [chrome.storage.sync] that the
    modelled code reads. [problem_data] maps the suffix of a
    [problem_data_<suffix>] key to the object stored there; the extension only
    ever writes objects under these keys. [faults] is the schedule of storage
    failures: each storage call takes the head of the list and fails when it
    is [true], which rejects the promise that is awaited; with an empty
    schedule no call fails. *)
Record storage : Type := Storage {
  problem_data : gmap string record;
  tuf_code_data : option code_data;
  timer_overlay_position : option (Z * Z);
  github_push_enabled : option bool;
  gemini_api_key : option string;
  browser_session_restarted : bool;
  faults : list bool
}.

Definition set_problem_data (f : gmap string record → gmap string record)
    (st : storage) : storage :=
  Storage (f (problem_data st)) (tuf_code_data st) (timer_overlay_position st)
          (github_push_enabled st) (gemini_api_key st)
          (browser_session_restarted st) (faults st).

Definition set_tuf_code_data (c : option code_data) (st : storage) : storage :=
  Storage (problem_data st) c (timer_overlay_position st)
          (github_push_enabled st) (gemini_api_key st)
          (browser_session_restarted st) (faults st).

Definition set_timer_overlay_position (p : option (Z * Z)) (st : storage) : storage :=
  Storage (problem_data st) (tuf_code_data st) p
          (github_push_enabled st) (gemini_api_key st)
          (browser_session_restarted st) (faults st).

Definition set_browser_session_restarted (r : bool) (st : storage) : storage :=
  Storage (problem_data st) (tuf_code_data st) (timer_overlay_position st)
          (github_push_enabled st) (gemini_api_key st) r (faults st).

Definition set_faults (fs : list bool) (st : storage) : storage :=
  Storage (problem_data st) (tuf_code_data st) (timer_overlay_position st)
          (github_push_enabled st) (gemini_api_key st)
          (browser_session_restarted st) fs.

(* ===================================================================== *)
(** * Handlers: state, storage and exceptions *)
(* ===================================================================== *)

(** What an [async] function settles to. *)
Inductive outcome (A : Type) : Type :=
| Ok (a : A)
| Throw (msg : string).
Arguments Ok {A} a.
Arguments Throw {A} msg.

(** A handler over the object state [X] (the fields of [this] and the
    variables of the enclosing closure) and the storage. Assignments made
    before an exception is raised stay in place. *)
Definition M (X A : Type) : Type := X * storage → outcome A * (X * storage).

Definition ret {X A} (a : A) : M X A := λ s, (Ok a, s).

Definition bind {X A B} (m : M X A) (k : A → M X B) : M X B :=
  λ s, match m s with
       | (Ok a, s') => k a s'
       | (Throw e, s') => (Throw e, s')
       end.

Definition throw {X A} (msg : string) : M X A := λ s, (Throw msg, s).

(** [try { m } catch (error) { h error }] *)
Definition try_catch {X A} (m : M X A) (h : string → M X A) : M X A :=
  λ s, match m s with
       | (Ok a, s') => (Ok a, s')
       | (Throw e, s') => h e s'
       end.

#[global] Instance M_ret X : MRet (M X) := λ A, @ret X A.
#[global] Instance M_bind X : MBind (M X) := λ A B k m, @bind X A B m k.

(** Awaiting a call whose result is already known. *)
Definition lift {X A} (o : outcome A) : M X A := λ s, (o, s).

Definition get_this {X} : M X X := λ s, (Ok (fst s), s).
Definition modify_this {X} (f : X → X) : M X unit := λ s, (Ok tt, (f (fst s), snd s)).
Definition when_ {X} (b : bool) (m : M X unit) : M X unit := if b then m else ret tt.

(** One promise-returning call on [chrome.storage]: consult the failure
    schedule, then read or update the storage. *)
Definition storage_call {X A} (f : storage → A * storage) : M X A :=
  λ s, match faults (snd s) with
       | true :: fs => (Throw "storage error", (fst s, set_faults fs (snd s)))
       | false :: fs =>
           let r := f (set_faults fs (snd s)) in (Ok (fst r), (fst s, snd r))
       | [] => let r := f (snd s) in (Ok (fst r), (fst s, snd r))
       end.

(** [chrome.storage.local.get([`problem_data_${key}`])] followed by
    [result[storageKey]]. *)
Definition local_get_problem {X} (key : string) : M X (option record) :=
  storage_call (λ st, (problem_data st !! key, st)).

(** [chrome.storage.local.set({ [storageKey]: problemData })] *)
Definition local_set_problem {X} (key : string) (r : record) : M X unit :=
  storage_call (λ st, (tt, set_problem_data (<[key := r]>) st)).

Definition local_set_position {X} (p : Z * Z) : M X unit :=
  storage_call (λ st, (tt, set_timer_overlay_position (Some p) st)).

Definition local_get_position {X} : M X (option (Z * Z)) :=
  storage_call (λ st, (timer_overlay_position st, st)).

Definition local_get_session_restarted {X} : M X bool :=
  storage_call (λ st, (browser_session_restarted st, st)).

Definition local_remove_session_restarted {X} : M X unit :=
  storage_call (λ st, (tt, set_browser_session_restarted false st)).

Definition local_get_code_data {X} : M X (option code_data) :=
  storage_call (λ st, (tuf_code_data st, st)).

Definition local_set_code_data {X} (c : code_data) : M X unit :=
  storage_call (λ st, (tt, set_tuf_code_data (Some c) st)).

Definition local_remove_code_data {X} : M X unit :=
  storage_call (λ st, (tt, set_tuf_code_data None st)).

Definition sync_get_github_push_enabled {X} : M X (option bool) :=
  storage_call (λ st, (github_push_enabled st, st)).

Definition sync_get_gemini_api_key {X} : M X (option string) :=
  storage_call (λ st, (gemini_api_key st, st)).

(** The next storage call is answered. *)
Definition next_call_answers (st : storage) : bool :=
  match faults st with
  | true :: _ => false
  | _ => true
  end.

(** The storage once a call that only reads has been made. *)
Definition after_read (st : storage) : storage :=
  match faults st with
  | [] => st
  | _ :: fs => set_faults fs st
  end.

(** A computation that leaves the object and the storage as they are. *)
Definition stateless {X A} (m : M X A) : Prop := ∀ s, snd (m s) = s.

(** Running a handler for its effect: an exception that leaves an event
    handler is an unhandled rejection and ends that handler only. *)
Definition exec {X A} (m : M X A) (s : X * storage) : X * storage := snd (m s).

(* ===================================================================== *)
(** * ProblemTimer (src/utils/problem-timer.js) *)
(* ===================================================================== *)

Module ProblemTimer.

Record timer : Type := Timer {
  problemUrl : option string;
  startTime : option Z;
  pausedTime : Z;
  isTabHidden : bool;
  tabHiddenAt : option Z;
  currentX : Z;
  currentY : Z
}.

Definition set_startTime (v : option Z) (t : timer) : timer :=
  Timer (problemUrl t) v (pausedTime t) (isTabHidden t) (tabHiddenAt t)
        (currentX t) (currentY t).
Definition set_pausedTime (v : Z) (t : timer) : timer :=
  Timer (problemUrl t) (startTime t) v (isTabHidden t) (tabHiddenAt t)
        (currentX t) (currentY t).
Definition set_isTabHidden (v : bool) (t : timer) : timer :=
  Timer (problemUrl t) (startTime t) (pausedTime t) v (tabHiddenAt t)
        (currentX t) (currentY t).
Definition set_tabHiddenAt (v : option Z) (t : timer) : timer :=
  Timer (problemUrl t) (startTime t) (pausedTime t) (isTabHidden t) v
        (currentX t) (currentY t).
Definition set_problemUrl (v : option string) (t : timer) : timer :=
  Timer v (startTime t) (pausedTime t) (isTabHidden t) (tabHiddenAt t)
        (currentX t) (currentY t).
Definition set_position (x y : Z) (t : timer) : timer :=
  Timer (problemUrl t) (startTime t) (pausedTime t) (isTabHidden t)
        (tabHiddenAt t) x y.

(** The timer state set up by the constructor; [hidden] is
    [document.hidden] and [(x, y)] the default overlay position. *)
Definition constructor (hidden : bool) (x y : Z) : timer :=
  Timer None None 0 hidden None x y.

(** [reset()], called when navigating to a new problem. [now] is
    [Date.now()] and [hidden] is [document.hidden]. *)
Definition reset (now : Z) (hidden : bool) : M timer unit :=
  modify_this (set_startTime (Some now));;
  modify_this (set_pausedTime 0);;
  modify_this (set_isTabHidden hidden);;
  modify_this (set_tabHiddenAt None).

(** [saveToStorage()]: the queued operation reads the stored record, assigns
    the two timer fields and writes the record back, then saves the overlay
    position; a storage failure is logged, not raised. *)
Definition saveToStorage : M timer unit :=
  t ← get_this;
  match problemUrl t with
  | None => ret tt
  | Some url =>
      if negb (truthy_str url) then ret tt else
      try_catch
        (stored ← local_get_problem url;
         let problemData := default ∅ stored in
         let problemData := <["problemStartTime" := num_val (startTime t)]> problemData in
         let problemData := <["pausedTime" := JNum (pausedTime t)]> problemData in
         local_set_problem url problemData;;
         local_set_position (currentX t, currentY t))
        (λ _, ret tt)
  end.

(** The [visibilitychange] listener, an [async] function: the part that
    runs when the event is delivered; [hidden] is [document.hidden] at that
    moment. It runs up to [await this.saveToStorage()] and answers [true]
    when the listener is suspended there, its last statement still to run. *)
Definition onVisibilityChange (now : Z) (hidden : bool) : M timer bool :=
  if hidden then
    modify_this (set_isTabHidden true);;
    modify_this (set_tabHiddenAt (Some now));;
    ret false
  else
    modify_this (set_isTabHidden false);;
    t ← get_this;
    if truthy_num (tabHiddenAt t) && truthy_num (startTime t) then
      let hiddenDuration := now - to_number (tabHiddenAt t) in
      modify_this (set_pausedTime (pausedTime t + hiddenDuration));;
      saveToStorage;;
      ret true
    else
      modify_this (set_tabHiddenAt None);;
      ret false.

(** What a suspended listener does once the save it awaits has settled:
    [this.tabHiddenAt = null]. *)
Definition onVisibilityChange_resumed : M timer unit :=
  modify_this (set_tabHiddenAt None).

(** [getElapsedActiveTime()]: the value returned and the timer afterwards. *)
Definition getElapsedActiveTime (now : Z) (t : timer) : Z * timer :=
  if negb (truthy_num (startTime t)) then (0, t) else
  let elapsed := now - to_number (startTime t) - pausedTime t in
  let elapsed :=
    if isTabHidden t && truthy_num (tabHiddenAt t)
    then elapsed - (now - to_number (tabHiddenAt t))
    else elapsed in
  if elapsed <? 0 then
    (0, set_tabHiddenAt None (set_pausedTime 0 (set_startTime (Some now) t)))
  else (elapsed, t).

(** [loadFromStorage()]: after a browser restart the flag is cleared and
    nothing is loaded; otherwise the timer fields and the overlay position
    are read back; a storage failure is logged, not raised. *)
Definition loadFromStorage : M timer unit :=
  t ← get_this;
  match problemUrl t with
  | None => ret tt
  | Some url =>
      if negb (truthy_str url) then ret tt else
      try_catch
        (restarted ← local_get_session_restarted;
         if restarted : bool then local_remove_session_restarted
         else
           stored ← local_get_problem url;
           let problemData : record := default ∅ stored in
           modify_this (set_startTime (as_number (problemData !! "problemStartTime")));;
           modify_this (set_pausedTime
             (num_or (default 0 (as_number (problemData !! "pausedTime"))) 0));;
           positionResult ← local_get_position;
           match positionResult with
           | Some (x, y) => modify_this (set_position x y)
           | None => ret tt
           end)
        (λ _, ret tt)
  end.

(** [startTimer(problemUrl)]. When stored data is resumed, the elapsed time
    is computed for the log line, with its self-correction. *)
Definition startTimer (now : Z) (url : string) : M timer unit :=
  if negb (truthy_str url) then ret tt else
  t ← get_this;
  if bool_decide (problemUrl t = Some url) && truthy_num (startTime t) then ret tt
  else
    modify_this (set_problemUrl (Some url));;
    loadFromStorage;;
    t ← get_this;
    (if negb (truthy_num (startTime t)) then
       modify_this (set_startTime (Some now));;
       modify_this (set_pausedTime 0)
     else modify_this (λ t, snd (getElapsedActiveTime now t)));;
    saveToStorage.

(** [resetTimer()], called from the overlay's reset button. *)
Definition resetTimer (now : Z) (hidden : bool) : M timer unit :=
  modify_this (set_startTime (Some now));;
  modify_this (set_pausedTime 0);;
  modify_this (set_isTabHidden hidden);;
  modify_this (set_tabHiddenAt None);;
  saveToStorage.

Definition getStartTime (t : timer) : option Z := startTime t.
Definition getPausedTime (t : timer) : Z := pausedTime t.

(** A visibility event: the clock reading and [document.hidden]. *)
Record vis_event : Type := Vis { vis_now : Z; vis_hidden : bool }.

(** What happens next on the page: a visibility event is delivered, or the
    save awaited by a suspended listener settles and that listener resumes. *)
Inductive vis_action : Type :=
| Deliver (e : vis_event)
| Resume.

(** The timer and the storage, with the number of listeners suspended at
    their [await]. *)
Definition tab : Type := (timer * storage) * nat.

Definition vis_act (a : vis_action) (s : tab) : tab :=
  match a with
  | Deliver e =>
      let r := onVisibilityChange (vis_now e) (vis_hidden e) (fst s) in
      (snd r, match fst r with Ok true => S (snd s) | _ => snd s end)
  | Resume =>
      match snd s with
      | O => s
      | S n => (exec onVisibilityChange_resumed (fst s), n)
      end
  end.

(** A schedule of deliveries and resumptions, oldest first. *)
Fixpoint run_visibility (acts : list vis_action) (s : tab) : tab :=
  match acts with
  | [] => s
  | a :: acts' => run_visibility acts' (vis_act a s)
  end.


(** A timer as [startTimer] leaves it: a start time is set and no hidden
    interval has been recorded yet. *)
Definition started (t : timer) : Prop :=
  truthy_num (startTime t) = true ∧ tabHiddenAt t = None.

(** The value the timer is said to report: wall-clock time since
    [startTime], minus [pausedTime], minus the current hidden interval when
    the tab is hidden. *)
Definition stated_elapsed (now : Z) (t : timer) : Z :=
  now - to_number (startTime t) - pausedTime t
  - (if isTabHidden t then now - to_number (tabHiddenAt t) else 0).

(** The self-correction: restart the clock at [now] and drop the hidden
    interval. *)
Definition corrected (now : Z) (t : timer) : timer :=
  set_tabHiddenAt None (set_pausedTime 0 (set_startTime (Some now) t)).


(** The stated behaviour of [getElapsedActiveTime()] in every state reached
    from a started timer by visibility events. *)
Definition elapsed_as_stated : Prop :=
  ∀ (t0 : timer) (st : storage) (acts : list vis_action) (now : Z),
    started t0 →
    let t := fst (fst (run_visibility acts (t0, st, 0%nat))) in
    0 ≤ fst (getElapsedActiveTime now t) ∧
    getElapsedActiveTime now t =
      if stated_elapsed now t <? 0 then (0, corrected now t)
      else (stated_elapsed now t, t).


(** The stored record of the timer's problem carries the timer's fields. *)
Definition persisted (t : timer) (st : storage) : Prop :=
  ∀ url, problemUrl t = Some url →
    ∃ r : record,
      problem_data st !! url = Some r
      ∧ r !! "problemStartTime" = Some (num_val (startTime t))
      ∧ r !! "pausedTime" = Some (JNum (pausedTime t)).

(** The stated behaviour of [reset()]. *)
Definition reset_as_stated : Prop :=
  ∀ (now : Z) (hidden : bool) (t : timer) (st : storage),
    let s' := exec (reset now hidden) (t, st) in
    startTime (fst s') = Some now
    ∧ pausedTime (fst s') = 0
    ∧ tabHiddenAt (fst s') = None
    ∧ persisted (fst s') (snd s')
    ∧ fst (getElapsedActiveTime now (fst s')) = 0.



(** The timer when a visibility event has been delivered, and whether its
    listener is then suspended. *)
Definition vis_delivered (e : vis_event) (t : timer) : timer :=
  if vis_hidden e then set_tabHiddenAt (Some (vis_now e)) (set_isTabHidden true t)
  else if truthy_num (tabHiddenAt t) && truthy_num (startTime t)
       then set_pausedTime (pausedTime t + (vis_now e - to_number (tabHiddenAt t)))
              (set_isTabHidden false t)
       else set_tabHiddenAt None (set_isTabHidden false t).

Definition vis_suspends (e : vis_event) (t : timer) : bool :=
  negb (vis_hidden e) && (truthy_num (tabHiddenAt t) && truthy_num (startTime t)).




(** A timer started at 1000 in a visible tab, an empty storage, and a tab
    that is hidden from 2000 to 5000 and again from 7000. *)
Definition demo_timer : timer :=
  Timer (Some "two-sum") (Some 1000) 0 false None 20 30.
Definition demo_storage : storage := Storage ∅ None None None None false [].

(** A storage in which the problem has a record already, with a name and
    the timer fields of an earlier session. *)
Definition demo_recorded_storage : storage :=
  Storage (<["two-sum" := <["name" := JStr "Two Sum"]>
                            (<["problemStartTime" := JNum 400]>
                               (<["pausedTime" := JNum 50]> ∅))]> ∅)
          None None None None false [].

(** A timer constructed while the tab is hidden and started at 1000. *)
Definition demo_hidden_timer : timer :=
  fst (exec (startTimer 1000 "two-sum") (constructor true 20 30, demo_storage)).

(** The tab is hidden at 2000 and shown at 5000; it is hidden again at 6000,
    while the listener of the show event waits for its save; then that
    listener resumes. *)
Definition demo_hide_during_save : list vis_action :=
  [Deliver (Vis 2000 true); Deliver (Vis 5000 false); Deliver (Vis 6000 true);
   Resume].

End ProblemTimer.

(* ===================================================================== *)
(** * Attempts and problem descriptions shared by the modules below *)
(* ===================================================================== *)

(** An entry of [this.attempts]; [successful] is [None] while the outcome of
    the run is pending ([null] in the source). *)
Record attempt : Type := Attempt {
  a_code : string;
  a_language : string;
  a_timestamp : string;
  a_type : string;
  a_runNumber : Z;
  a_successful : option bool
}.

(** Submission statistics attached to a problem on a successful submission. *)
Record stats : Type := Stats {
  st_success : option bool;
  st_status : option string;
  st_totalTestCases : option Z;
  st_passedTestCases : option Z;
  st_runtime : option string;
  st_memory : option string
}.

(** The object built by [extractProblemInfo]. *)
Record problem_info : Type := ProblemInfo {
  pi_title : string;
  pi_description : string;
  pi_difficulty : Z;
  pi_url : string;
  pi_language : string;
  pi_code : string;
  pi_slug : string;
  pi_topics : list string;
  pi_stats : option stats
}.

Definition set_pi_stats (v : option stats) (p : problem_info) : problem_info :=
  ProblemInfo (pi_title p) (pi_description p) (pi_difficulty p) (pi_url p)
              (pi_language p) (pi_code p) (pi_slug p) (pi_topics p) v.

(* ===================================================================== *)
(** * GeminiAPI (src/unnamed/part_000) *)
(* ===================================================================== *)

Module GeminiAPI.

(** [v.k] where [v] may be [null] or [undefined]: reading a property of
    either raises a TypeError. *)
Definition member (k : string) (v : option jsval) : outcome (option jsval) :=
  match v with
  | None | Some JNull => Throw "Cannot read properties of undefined"
  | Some (JObj m) => Ok (m !! k)
  | Some _ => Ok None
  end.

(** [v[0]] *)
Definition first (v : option jsval) : outcome (option jsval) :=
  match v with
  | None | Some JNull => Throw "Cannot read properties of undefined"
  | Some (JArr l) => Ok (head l)
  | Some (JObj m) => Ok (m !! "0")
  | Some (JStr (String c _)) => Ok (Some (JStr (String c "")))
  | Some _ => Ok None
  end.

(** What [fetch] resolves to; reading the body may itself fail. *)
Record response : Type := Response {
  ok : bool;
  status : Z;
  text : outcome string;
  json : outcome jsval
}.

(** The client: its key and the requests it has sent (URL and prompt). *)
Record gemini : Type := Gemini {
  apiKey : option string;
  requests : list (string * string)
}.

Definition baseURL : string :=
  "https://generativelanguage.googleapis.com/v1beta/models/gemini-3-flash-preview:generateContent".

(** The state after [new GeminiAPI()]. *)
Definition constructor : gemini := Gemini None [].

Definition key_set (k : option string) : bool :=
  match k with Some s => truthy_str s | None => false end.

(** What the client resolves to: [{success: true, analysis, tags}] or
    [{success: false, error}]. *)
Inductive analysis_result : Type :=
| Analysis (analysis : string) (tags : list string)
| AnalysisError (error : string).

Definition success (r : analysis_result) : bool :=
  match r with Analysis _ _ => true | AnalysisError _ => false end.

(** [initialize()]: [chrome.storage.sync.get] is called inside the executor
    of the promise that is returned, so a call that fails rejects it;
    otherwise the callback keeps the stored key, or [null], and resolves. *)
Definition initialize : M gemini bool :=
  data ← sync_get_gemini_api_key;
  let key := match data with
             | Some k => if truthy_str k then Some k else None
             | None => None
             end in
  modify_this (λ g, Gemini key (requests g));;
  ret (key_set key).

(** The string primitives behind [parseAnalysisResponse]: the first capture
    of [/^TAGS:\s*(.+)$/m], the text with that match removed, [trim] and
    [split(',')]. *)
Record string_ops : Type := StringOps {
  match_tags : string → option string;
  remove_tags : string → string;
  trim : string → string;
  split_commas : string → list string
}.

Section Client.

Variable ops : string_ops.

(** The network: what [fetch(url, {body})] settles to. *)
Variable network : string → string → outcome response.

(** [parseAnalysisResponse(rawAnalysis)]; calling [match] on anything but
    a string raises a TypeError. *)
Definition parseAnalysisResponse (rawAnalysis : option jsval)
    : outcome (list string * string) :=
  match rawAnalysis with
  | Some (JStr raw) =>
      let tags :=
        match match_tags ops raw with
        | Some line =>
            filter (λ t, 0 < str_length t) (trim ops <$> split_commas ops line)
        | None => []
        end in
      let summary := trim ops (remove_tags ops raw) in
      Ok (tags, summary)
  | _ => Throw "rawAnalysis.match is not a function"
  end.

(** [buildAnalysisPrompt(attempts, problemInfo)]; destructuring a missing
    [problemInfo] raises a TypeError. *)
Definition buildAnalysisPrompt (attempts : list attempt)
    (problemInfo : option problem_info) : outcome string :=
  match problemInfo with
  | None => Throw "Cannot destructure property 'title' of 'problemInfo'"
  | Some info =>
      let title := pi_title info in
      let description := pi_description info in
      let prompt :=
        "Analyze the coding attempts for this problem and provide a brief mistake analysis in markdown format.

Problem: " +:+ title +:+ "
" +:+ (if truthy_str description
   then "Description: " +:+ String.substring 0 500 description +:+ "..."
   else "") +:+ "

Coding Attempts (chronological order):
" in
      let prompt :=
        foldl (λ acc ia, acc +:+ "
### Attempt " +:+ pretty (Z.of_nat (fst ia) + 1) +:+ "
```" +:+ a_language (snd ia) +:+ "
" +:+ a_code (snd ia) +:+ "
```
") prompt (imap pair attempts) in
      Ok (prompt +:+ "

CRITICAL: You MUST start your response with exactly this format:
TAGS: tag1, tag2, tag3

Use ONLY these specific tag categories (pick 1-3 most relevant):
- Logic Error
- Syntax Error  
- Algorithm Choice
- Edge Cases
- Data Structure
- Time Complexity
- Space Complexity
- Input Handling
- Loop Logic
- Conditional Logic
- Array Bounds
- Null Pointer
- Off By One

Then provide brief analysis:
1. **Time-Travel Debugging**: From all of them attempts choose the most clicking moments/code snippets, which even when user sees even after a long time, they should remember how he solved this problem.
2. **Key Issues**: What specific errors occurred. 
3. **Improvements**: As attemps progressed, what improved.
Keep under 100 words total. Focus only on technical programming concepts.")
  end.

(** [fetch(url, ...)]: the request is recorded, then the network answers. *)
Definition fetch (url prompt : string) : M gemini response :=
  modify_this (λ g, Gemini (apiKey g) (requests g ++ [(url, prompt)]));;
  lift (network url prompt).

(** The part of the [try] block of [analyzeMistakes] that follows the
    [fetch]: reading the response. *)
Definition read_response (response : response) : M gemini analysis_result :=
  if negb (ok response) then
    errorText ← lift (text response);
    throw ("Gemini API responded with " +:+ pretty (status response)
           +:+ ": " +:+ errorText)
  else
    data ← lift (json response);
    candidates ← lift (member "candidates" (Some data));
    candidate ← (if truthy_opt candidates then lift (first candidates)
                 else ret candidates);
    content ← (if truthy_opt candidate then lift (member "content" candidate)
               else ret candidate);
    if truthy_opt content then
      parts ← lift (member "parts" content);
      part ← lift (first parts);
      rawAnalysis ← lift (member "text" part);
      parsed ← lift (parseAnalysisResponse rawAnalysis);
      ret (Analysis (snd parsed) (fst parsed))
    else throw "Invalid response format from Gemini API".

(** The body of the [try] block of [analyzeMistakes]. *)
Definition request_analysis (attempts : list attempt)
    (problemInfo : option problem_info) : M gemini analysis_result :=
  prompt ← lift (buildAnalysisPrompt attempts problemInfo);
  g ← get_this;
  response ← fetch (baseURL +:+ "?key=" +:+ default "null" (apiKey g)) prompt;
  read_response response.

(** [analyzeMistakes(attempts, problemInfo)]; [attempts] is [None] for
    [null]. *)
Definition analyzeMistakes (attempts : option (list attempt))
    (problemInfo : option problem_info) : M gemini analysis_result :=
  g ← get_this;
  initialized ← (if negb (key_set (apiKey g)) then initialize else ret true);
  if negb initialized then
    ret (AnalysisError "Gemini API key not configured")
  else
    match attempts with
    | None | Some [] => ret (AnalysisError "No attempts to analyze")
    | Some (a :: rest) =>
        try_catch (request_analysis (a :: rest) problemInfo)
                  (λ message, ret (AnalysisError message))
    end.

End Client.

(** A key is at hand: the client holds one, or one is stored. *)
Definition key_available (g : gemini) (st : storage) : bool :=
  key_set (apiKey g) || key_set (gemini_api_key st).

(** The stated behaviour of [analyzeMistakes]: it always resolves to a
    result, and without attempts that result is the error
    "No attempts to analyze", with no request sent. *)
Definition analysis_failures_as_stated : Prop :=
  ∀ (ops : string_ops) (network : string → string → outcome response)
    (attempts : option (list attempt)) (problemInfo : option problem_info)
    (g : gemini) (st : storage),
    let r := analyzeMistakes ops network attempts problemInfo (g, st) in
    (∃ res, fst r = Ok res)
    ∧ (attempts = None ∨ attempts = Some [] →
       fst r = Ok (AnalysisError "No attempts to analyze")
       ∧ requests (fst (snd r)) = requests g).

(** A network that is down, one that answers 429, and one whose answer has
    no candidates. *)
Definition offline : string → string → outcome response :=
  λ _ _, Throw "Failed to fetch".

Definition demo_ops : string_ops :=
  StringOps (λ _, None) (λ s, s) (λ s, s) (λ s, [s]).

Definition demo_attempt : attempt :=
  Attempt "int main() { return 1; }" "cpp" "2026-01-01T00:00:01.000Z" "run" 1
          (Some false).

Definition demo_keyed_storage : storage :=
  Storage ∅ None None None (Some "secret") false [].

End GeminiAPI.

(* ===================================================================== *)
(** * String helpers of the content script *)
(* ===================================================================== *)

Definition is_upper (c : ascii) : bool :=
  (65 <=? Z.of_nat (nat_of_ascii c)) && (Z.of_nat (nat_of_ascii c) <=? 90).
Definition is_lower (c : ascii) : bool :=
  (97 <=? Z.of_nat (nat_of_ascii c)) && (Z.of_nat (nat_of_ascii c) <=? 122).
Definition is_digit (c : ascii) : bool :=
  (48 <=? Z.of_nat (nat_of_ascii c)) && (Z.of_nat (nat_of_ascii c) <=? 57).

(** [\w] *)
Definition is_word (c : ascii) : bool :=
  is_upper c || is_lower c || is_digit c || Ascii.eqb c "_"%char.

Definition lower_char (c : ascii) : ascii :=
  if is_upper c then ascii_of_nat (nat_of_ascii c + 32) else c.
Definition upper_char (c : ascii) : ascii :=
  if is_lower c then ascii_of_nat (nat_of_ascii c - 32) else c.

Fixpoint map_chars (f : ascii → ascii) (s : string) : string :=
  match s with
  | EmptyString => EmptyString
  | String c r => String (f c) (map_chars f r)
  end.

(** [s.toLowerCase()] on ASCII text. *)
Definition toLowerCase (s : string) : string := map_chars lower_char s.

(** [hay.includes(needle)] *)
Fixpoint includes (needle hay : string) : bool :=
  if String.prefix needle hay then true
  else match hay with
       | EmptyString => false
       | String _ r => includes needle r
       end.

(** [s.replace(/\b\w/g, l => l.toUpperCase())]; [inside] tells whether the
    previous character was a word character. *)
Fixpoint capitalize_words (inside : bool) (s : string) : string :=
  match s with
  | EmptyString => EmptyString
  | String c r =>
      String (if is_word c && negb inside then upper_char c else c)
             (capitalize_words (is_word c) r)
  end.

(** [href.split('?')[0]] *)
Fixpoint before_query (href : string) : string :=
  match href with
  | EmptyString => EmptyString
  | String c r => if Ascii.eqb c "?"%char then EmptyString else String c (before_query r)
  end.

(** The last non-empty segment of a path; [seg] is the segment being read and
    [found] the last non-empty one completed so far. *)
Fixpoint last_segment (seg found : string) (path : string) : string :=
  match path with
  | EmptyString => if truthy_str seg then seg else found
  | String c r =>
      if Ascii.eqb c "/"%char
      then last_segment "" (if truthy_str seg then seg else found) r
      else last_segment (seg +:+ String c "") found r
  end.

(* ===================================================================== *)
(** * TakeUforward content script (src/content-scripts/takeuforward.js) *)
(* ===================================================================== *)

Module TakeUforward.

(** Calls that leave the content script, in the order they are made. *)
Inductive effect : Type :=
| AnalysisRequested (attempts : list attempt)
| BackendPush (url : string)
| GitHubPush (info : problem_info)
| ToastSuccess (msg : string)
| ToastError (msg : string).

(** The closure variables of the script and the fields of the extractor. *)
Record extractor : Type := Extractor {
  QUES : string;
  DESCRIPTION : string;
  DIFFICULTY : string;
  PROBLEM_SLUG : string;
  SELECTED_LANGUAGE : string;
  PUBLIC_CODE : string;
  TRIES : Z;
  currentProblem : option problem_info;
  currentPathname : string;
  attempts : list attempt;
  runCounter : Z;
  incorrectRunCounter : Z;
  hasAnalyzedMistakes : bool;
  shouldAnalyzeWithGemini : bool;
  aiAnalysis : option string;
  aiTags : list string;
  effects : list effect
}.

(** The state when the script is loaded on [pathname]. *)
Definition constructor (pathname : string) : extractor :=
  Extractor "" "" "" "" "" "" 0 None pathname [] 0 0 false false None [] [].

Definition set_question (q d f : string) (x : extractor) : extractor :=
  Extractor q d f (PROBLEM_SLUG x) (SELECTED_LANGUAGE x) (PUBLIC_CODE x)
    (TRIES x) (currentProblem x) (currentPathname x) (attempts x)
    (runCounter x) (incorrectRunCounter x) (hasAnalyzedMistakes x)
    (shouldAnalyzeWithGemini x) (aiAnalysis x) (aiTags x) (effects x).

Definition set_code (slug language code : string) (x : extractor) : extractor :=
  Extractor (QUES x) (DESCRIPTION x) (DIFFICULTY x) slug language code
    (TRIES x) (currentProblem x) (currentPathname x) (attempts x)
    (runCounter x) (incorrectRunCounter x) (hasAnalyzedMistakes x)
    (shouldAnalyzeWithGemini x) (aiAnalysis x) (aiTags x) (effects x).

Definition set_TRIES (n : Z) (x : extractor) : extractor :=
  Extractor (QUES x) (DESCRIPTION x) (DIFFICULTY x) (PROBLEM_SLUG x)
    (SELECTED_LANGUAGE x) (PUBLIC_CODE x)
    n (currentProblem x) (currentPathname x) (attempts x)
    (runCounter x) (incorrectRunCounter x) (hasAnalyzedMistakes x)
    (shouldAnalyzeWithGemini x) (aiAnalysis x) (aiTags x) (effects x).

Definition set_currentProblem (p : option problem_info) (x : extractor) : extractor :=
  Extractor (QUES x) (DESCRIPTION x) (DIFFICULTY x) (PROBLEM_SLUG x)
    (SELECTED_LANGUAGE x) (PUBLIC_CODE x)
    (TRIES x) p (currentPathname x) (attempts x)
    (runCounter x) (incorrectRunCounter x) (hasAnalyzedMistakes x)
    (shouldAnalyzeWithGemini x) (aiAnalysis x) (aiTags x) (effects x).

Definition set_currentPathname (p : string) (x : extractor) : extractor :=
  Extractor (QUES x) (DESCRIPTION x) (DIFFICULTY x) (PROBLEM_SLUG x)
    (SELECTED_LANGUAGE x) (PUBLIC_CODE x)
    (TRIES x) (currentProblem x) p (attempts x)
    (runCounter x) (incorrectRunCounter x) (hasAnalyzedMistakes x)
    (shouldAnalyzeWithGemini x) (aiAnalysis x) (aiTags x) (effects x).

Definition set_attempts (l : list attempt) (x : extractor) : extractor :=
  Extractor (QUES x) (DESCRIPTION x) (DIFFICULTY x) (PROBLEM_SLUG x)
    (SELECTED_LANGUAGE x) (PUBLIC_CODE x)
    (TRIES x) (currentProblem x) (currentPathname x) l
    (runCounter x) (incorrectRunCounter x) (hasAnalyzedMistakes x)
    (shouldAnalyzeWithGemini x) (aiAnalysis x) (aiTags x) (effects x).

Definition set_runCounter (n : Z) (x : extractor) : extractor :=
  Extractor (QUES x) (DESCRIPTION x) (DIFFICULTY x) (PROBLEM_SLUG x)
    (SELECTED_LANGUAGE x) (PUBLIC_CODE x)
    (TRIES x) (currentProblem x) (currentPathname x) (attempts x)
    n (incorrectRunCounter x) (hasAnalyzedMistakes x)
    (shouldAnalyzeWithGemini x) (aiAnalysis x) (aiTags x) (effects x).

Definition set_incorrectRunCounter (n : Z) (x : extractor) : extractor :=
  Extractor (QUES x) (DESCRIPTION x) (DIFFICULTY x) (PROBLEM_SLUG x)
    (SELECTED_LANGUAGE x) (PUBLIC_CODE x)
    (TRIES x) (currentProblem x) (currentPathname x) (attempts x)
    (runCounter x) n (hasAnalyzedMistakes x)
    (shouldAnalyzeWithGemini x) (aiAnalysis x) (aiTags x) (effects x).

Definition set_hasAnalyzedMistakes (b : bool) (x : extractor) : extractor :=
  Extractor (QUES x) (DESCRIPTION x) (DIFFICULTY x) (PROBLEM_SLUG x)
    (SELECTED_LANGUAGE x) (PUBLIC_CODE x)
    (TRIES x) (currentProblem x) (currentPathname x) (attempts x)
    (runCounter x) (incorrectRunCounter x) b
    (shouldAnalyzeWithGemini x) (aiAnalysis x) (aiTags x) (effects x).

Definition set_shouldAnalyzeWithGemini (b : bool) (x : extractor) : extractor :=
  Extractor (QUES x) (DESCRIPTION x) (DIFFICULTY x) (PROBLEM_SLUG x)
    (SELECTED_LANGUAGE x) (PUBLIC_CODE x)
    (TRIES x) (currentProblem x) (currentPathname x) (attempts x)
    (runCounter x) (incorrectRunCounter x) (hasAnalyzedMistakes x)
    b (aiAnalysis x) (aiTags x) (effects x).

Definition set_ai (analysis : option string) (tags : list string)
    (x : extractor) : extractor :=
  Extractor (QUES x) (DESCRIPTION x) (DIFFICULTY x) (PROBLEM_SLUG x)
    (SELECTED_LANGUAGE x) (PUBLIC_CODE x)
    (TRIES x) (currentProblem x) (currentPathname x) (attempts x)
    (runCounter x) (incorrectRunCounter x) (hasAnalyzedMistakes x)
    (shouldAnalyzeWithGemini x) analysis tags (effects x).

Definition emit (e : effect) (x : extractor) : extractor :=
  Extractor (QUES x) (DESCRIPTION x) (DIFFICULTY x) (PROBLEM_SLUG x)
    (SELECTED_LANGUAGE x) (PUBLIC_CODE x)
    (TRIES x) (currentProblem x) (currentPathname x) (attempts x)
    (runCounter x) (incorrectRunCounter x) (hasAnalyzedMistakes x)
    (shouldAnalyzeWithGemini x) (aiAnalysis x) (aiTags x) (effects x ++ [e]).

(** The payload of a [SUBMISSION_RESPONSE] message. *)
Record submission : Type := Submission {
  sub_success : option bool;
  sub_status : option string;
  sub_totalTestCases : option Z;
  sub_passedTestCases : option Z;
  sub_averageTime : option string;
  sub_averageMemory : option string
}.

(** What [backendAPI.pushCurrentProblemData] resolves to. *)
Inductive backend_result : Type :=
| BackendSynced (message : option string)
| BackendFailed (error : string).

(** What [githubAPI.pushSolution] resolves to. *)
Inductive github_result : Type :=
| GitHubPushed
| GitHubFailed (error : string).

(** The surroundings of one handler run: the page, the clock, the timer
    singleton and the answers of the remote services. An [outcome] that is
    [Throw] is a rejected promise or an exception raised by the call. *)
Record page : Type := Page {
  heading : option string;          (* h1.text-xl.font-bold, trimmed text *)
  paragraph : option string;        (* .tuf-text-14, trimmed text *)
  difficulty_label : option string; (* [class*=difficulty], trimmed text *)
  href : string;                    (* window.location.href *)
  pathname : string;                (* window.location.pathname *)
  category : option string;         (* the category query parameter *)
  now : Z;                          (* Date.now() *)
  iso_now : string;                 (* new Date().toISOString() *)
  timer : option ProblemTimer.timer;(* window.ProblemTimer.getInstance() *)
  string_ops : GeminiAPI.string_ops;
  network : string → string → outcome GeminiAPI.response;
  backend : outcome backend_result;
  github : outcome github_result;
  toast : bool                      (* window.LeetFeedbackToast is defined *)
}.

(** [fetchQuestionDetails()] *)
Definition fetchQuestionDetails (env : page) : M extractor unit :=
  x ← get_this;
  let '(ques, description) :=
    match heading env, paragraph env with
    | Some h, Some p => (h, p)
    | _, _ => (QUES x, DESCRIPTION x)
    end in
  let difficulty := str_or (default "" (difficulty_label env)) "Medium" in
  modify_this (set_question ques description difficulty).

(** [normalizeDifficulty(difficulty)] *)
Definition normalizeDifficulty (difficulty : string) : Z :=
  let normalized := toLowerCase difficulty in
  if includes "easy" normalized then 0
  else if includes "medium" normalized then 1
  else if includes "hard" normalized then 2
  else 1.

(** [getProblemSlugFromUrl()] *)
Definition getProblemSlugFromUrl (env : page) : string :=
  last_segment "" "" (pathname env).

(** [extractTopicsFromUrl()] *)
Definition extractTopicsFromUrl (env : page) : list string :=
  match category env with
  | Some categoryParam =>
      if truthy_str categoryParam then
        [capitalize_words false
           (map_chars (λ c, if Ascii.eqb c "-"%char then " "%char else c)
                      categoryParam)]
      else ["General"]
  | None => ["General"]
  end.

(** The first step of [extractProblemInfo()] after the page was read: when
    a cached field is empty, take the submission stored under [tuf_code_data]
    if it is less than a minute old. *)
Definition restore_code_data (env : page) : M extractor unit :=
  x ← get_this;
  when_ (negb (truthy_str (PUBLIC_CODE x))
         || negb (truthy_str (SELECTED_LANGUAGE x))
         || negb (truthy_str (PROBLEM_SLUG x)))
    (storedData ← local_get_code_data;
     match storedData with
     | Some data =>
         if negb (cd_timestamp data =? 0) then
           let dataAge := now env - cd_timestamp data in
           when_ (dataAge <? 60000)
             (modify_this
                (set_code (str_or (cd_PROBLEM_SLUG data) (PROBLEM_SLUG x))
                          (str_or (cd_SELECTED_LANGUAGE data) (SELECTED_LANGUAGE x))
                          (str_or (cd_PUBLIC_CODE data) (PUBLIC_CODE x))))
         else ret tt
     | None => ret tt
     end).

(** [extractProblemInfo()] *)
Definition extractProblemInfo (env : page) : M extractor (option problem_info) :=
  try_catch
    (fetchQuestionDetails env;;
     restore_code_data env;;
     x ← get_this;
     let problemInfo :=
       ProblemInfo (QUES x) (DESCRIPTION x) (normalizeDifficulty (DIFFICULTY x))
                   (before_query (href env)) (SELECTED_LANGUAGE x) (PUBLIC_CODE x)
                   (str_or (PROBLEM_SLUG x) (getProblemSlugFromUrl env))
                   (extractTopicsFromUrl env) None in
     if negb (truthy_str (pi_title problemInfo)) then ret None
     else if negb (truthy_str (pi_code problemInfo)) then ret None
     else
       modify_this (set_currentProblem (Some problemInfo));;
       ret (Some problemInfo))
    (λ _, ret None).

Definition solved_object (value : bool) (date tries : Z) : jsval :=
  JObj (<["value" := JBool value]>
          (<["date" := JNum date]> (<["tries" := JNum tries]> ∅))).

(** The [solved] object chosen by [storeProblemData]: the stored one when
    its [value] is truthy, otherwise a fresh one. *)
Definition solvedData_of (env : page) (solved : bool) (x : extractor)
    (existingData : record) : jsval :=
  let previousSolved := or_val (existingData !! "solved") (solved_object false 0 0) in
  if truthy_opt (prop "value" (Some previousSolved)) then previousSolved
  else if solved then solved_object true (now env) (num_or (TRIES x) 1)
  else solved_object false 0 (num_or (TRIES x) 0).

(** The object literal [problemData] of [storeProblemData]: the stored
    record spread first, then the fields listed in the source. *)
Definition problemData_of (env : page) (problemInfo : problem_info)
    (solved : bool) (x : extractor) (existingData : record) : record :=
  let timerStart := ProblemTimer.getStartTime <$> timer env in
  let timerPaused := ProblemTimer.getPausedTime <$> timer env in
  <["name" := JStr (pi_title problemInfo)]> $
  <["platform" := JStr "takeuforward"]> $
  <["difficulty" := JNum (pi_difficulty problemInfo)]> $
  <["solved" := solvedData_of env solved x existingData]> $
  <["ignored" := nullish_val (existingData !! "ignored") (JBool false)]> $
  <["parent_topic" := or_val (Some (strs_val (pi_topics problemInfo)))
                        (or_val (existingData !! "parent_topic")
                                (strs_val ["General"]))]> $
  <["problem_link" := JStr (pi_url problemInfo)]> $
  <["language" := or_val (Some (JStr (pi_language problemInfo)))
                    (or_val (existingData !! "language") (JStr "python"))]> $
  <["problemStartTime" :=
      or_val (num_val <$> timerStart)
        (or_val (existingData !! "problemStartTime") (JNum (now env)))]> $
  <["pausedTime" :=
      or_val (JNum <$> timerPaused)
        (or_val (existingData !! "pausedTime") (JNum 0))]> $
  <["aiAnalysis" := or_val (JStr <$> aiAnalysis x) JNull]> $
  <["aiTags" := strs_val (aiTags x)]> $
  <["shouldAnalyzeWithGemini" := JBool (shouldAnalyzeWithGemini x)]> $
  <["runCounter" := JNum (runCounter x)]> $
  <["incorrectRunCounter" := JNum (incorrectRunCounter x)]> $
  <["timestamp" := JStr (iso_now env)]> existingData.

(** [storeProblemData(problemInfo, solved)]: the record written, or [null]
    when the storage failed. *)
Definition storeProblemData (env : page) (problemInfo : problem_info)
    (solved : bool) : M extractor (option record) :=
  try_catch
    (let currentUrl := pi_url problemInfo in
     existingResult ← local_get_problem currentUrl;
     let existingData : record := default ∅ existingResult in
     x ← get_this;
     let problemData := problemData_of env problemInfo solved x existingData in
     local_set_problem currentUrl problemData;;
     ret (Some problemData))
    (λ _, ret None).

(** [handleThreeIncorrectRuns()]: the latching action. *)
Definition handleThreeIncorrectRuns : M extractor unit :=
  modify_this (set_hasAnalyzedMistakes true);;
  modify_this (set_shouldAnalyzeWithGemini true).

(** The assignments under "Reset state" in [handleSuccessfulSubmission]. *)
Definition reset_state : M extractor unit :=
  modify_this (set_TRIES 0);;
  modify_this (λ x, set_code "" "" "" x);;
  modify_this (set_attempts []);;
  modify_this (set_runCounter 0);;
  modify_this (set_incorrectRunCounter 0);;
  modify_this (set_hasAnalyzedMistakes false);;
  modify_this (set_shouldAnalyzeWithGemini false);;
  modify_this (set_ai None []).

(** Running a computation of a freshly constructed Gemini client from
    inside the extractor; the client is dropped afterwards. *)
Definition with_client {A} (m : M GeminiAPI.gemini A) : M extractor A :=
  λ s, let r := m (GeminiAPI.constructor, snd s) in
       (fst r, (fst s, snd (snd r))).

(** What the pipeline asks of the client it has just constructed:
    [initialize()], then [analyzeMistakes] when a key is configured. *)
Definition configured_analysis (env : page) (allAttempts : list attempt)
    (problemInfo : problem_info)
    : M GeminiAPI.gemini (option GeminiAPI.analysis_result) :=
  geminiConfigured ← GeminiAPI.initialize;
  if geminiConfigured : bool then
    r ← GeminiAPI.analyzeMistakes (string_ops env) (network env)
          (Some allAttempts) (Some problemInfo);
    ret (Some r)
  else ret None.

(** "Step 0" of [handleSuccessfulSubmission]: the analysis, run when the
    latch is set. *)
Definition analysis_stage (env : page) (problemInfo : problem_info)
    : M extractor unit :=
  try_catch
    (x ← get_this;
     let allAttempts :=
       List.filter (λ a, truthy_str (a_code a) && (10 <? str_length (a_code a)))
                   (attempts x) in
     geminiResult ← with_client (configured_analysis env allAttempts problemInfo);
     match geminiResult with
     | Some r =>
         modify_this (emit (AnalysisRequested allAttempts));;
         match r with
         | GeminiAPI.Analysis analysis tags =>
             modify_this (set_ai (Some analysis) tags);;
             storeProblemData env problemInfo true;;
             ret tt
         | GeminiAPI.AnalysisError _ => ret tt
         end
     | None => ret tt
     end)
    (λ _, ret tt).

(** "Step 1": the push to the backend and the toast that reports it. *)
Definition backend_stage (env : page) (problemInfo : problem_info)
    : M extractor unit :=
  try_catch
    (modify_this (emit (BackendPush (pi_url problemInfo)));;
     backendResult ← lift (backend env);
     match backendResult with
     | BackendSynced message =>
         when_ (toast env)
           (modify_this (emit (ToastSuccess
              (str_or (default "" message) "Solution synced to Traverse!"))))
     | BackendFailed error =>
         when_ (toast env)
           (modify_this (emit (ToastError ("Sync failed: " +:+ error))))
     end)
    (λ message,
       when_ (toast env)
         (modify_this (emit (ToastError ("Sync error: " +:+ message))))).

(** "Step 2": the push to GitHub when the toggle allows it, and the reset of
    the transient state. *)
Definition github_stage (env : page) (problemInfo : problem_info)
    : M extractor unit :=
  githubSettings ← sync_get_github_push_enabled;
  let githubPushEnabled :=
    match githubSettings with Some false => false | _ => true end in
  if githubPushEnabled then
    modify_this (emit (GitHubPush problemInfo));;
    githubResult ← lift (github env);
    match githubResult with
    | GitHubPushed =>
        local_remove_code_data;;
        reset_state
    | GitHubFailed _ => ret tt
    end
  else reset_state.

(** [handleSuccessfulSubmission] once the problem has been extracted and its
    code validated: attach the statistics, persist, analyse, push. *)
Definition persist_and_push (env : page) (submissionData : submission)
    (problemInfo : problem_info) : M extractor unit :=
  let problemInfo :=
    set_pi_stats
      (Some (Stats (sub_success submissionData) (sub_status submissionData)
                   (sub_totalTestCases submissionData)
                   (sub_passedTestCases submissionData)
                   (sub_averageTime submissionData)
                   (sub_averageMemory submissionData)))
      problemInfo in
  (* [this.currentProblem] is the same object *)
  modify_this (set_currentProblem (Some problemInfo));;
  storeProblemData env problemInfo true;;
  x ← get_this;
  when_ (shouldAnalyzeWithGemini x) (analysis_stage env problemInfo);;
  backend_stage env problemInfo;;
  github_stage env problemInfo.

(** [handleSuccessfulSubmission(submissionData)] *)
Definition handleSuccessfulSubmission (env : page) (submissionData : submission)
    : M extractor unit :=
  try_catch
    (extracted ← extractProblemInfo env;
     match extracted with
     | None => ret tt
     | Some problemInfo =>
         if negb (truthy_str (pi_code problemInfo))
            || (str_length (pi_code problemInfo) <? 10)
         then ret tt
         else persist_and_push env submissionData problemInfo
     end)
    (λ _, ret tt).

(** The messages posted by the page interceptor. *)
Inductive message : Type :=
| CODE_SUBMIT (language usercode problem_id : option string)
| CODE_RUN (usercode language : option string)
| RUN_RESPONSE (success : option bool) (status : option string)
| SUBMISSION_RESPONSE (submissionData : submission).

(** The index of [this.attempts.filter(a => a.type === 'run').pop()] in
    [this.attempts]: the last attempt of type run. *)
Fixpoint last_run_index (l : list attempt) : option nat :=
  match l with
  | [] => None
  | a :: l' =>
      match last_run_index l' with
      | Some i => Some (S i)
      | None => if String.eqb (a_type a) "run" then Some 0%nat else None
      end
  end.

Definition set_successful (b : option bool) (a : attempt) : attempt :=
  Attempt (a_code a) (a_language a) (a_timestamp a) (a_type a) (a_runNumber a) b.

(** The listener installed by [setupMessageListener]. *)
Definition onMessage (env : page) (msg : message) : M extractor unit :=
  match msg with
  | CODE_SUBMIT language usercode problem_id =>
      modify_this (set_code (str_or (default "" problem_id) "")
                            (str_or (default "" language) "")
                            (str_or (default "" usercode) ""));;
      x ← get_this;
      local_set_code_data
        (CodeData (SELECTED_LANGUAGE x) (PUBLIC_CODE x) (PROBLEM_SLUG x) (now env));;
      modify_this (λ x, set_TRIES (TRIES x + 1) x)
  | CODE_RUN usercode language =>
      modify_this (λ x, set_runCounter (runCounter x + 1) x);;
      x ← get_this;
      let code := str_or (default "" usercode) (PUBLIC_CODE x) in
      let language := str_or (default "" language) (SELECTED_LANGUAGE x) in
      when_ (truthy_str code && (10 <? str_length code))
        (modify_this (set_attempts
           (attempts x ++ [Attempt code language (iso_now env) "run"
                                   (runCounter x) None])))
  | RUN_RESPONSE success status =>
      x ← get_this;
      match last_run_index (attempts x) with
      | Some i =>
          match attempts x !! i with
          | Some lastAttempt =>
              match a_successful lastAttempt with
              | None =>
                  if bool_decide (success = Some true)
                     || bool_decide (status = Some "Accepted")
                  then
                    modify_this (set_attempts
                      (<[i := set_successful (Some true) lastAttempt]> (attempts x)))
                  else
                    modify_this (set_attempts
                      (<[i := set_successful (Some false) lastAttempt]> (attempts x)));;
                    modify_this (λ x, set_incorrectRunCounter (incorrectRunCounter x + 1) x);;
                    x ← get_this;
                    when_ ((2 <=? incorrectRunCounter x)
                           && negb (hasAnalyzedMistakes x))
                      handleThreeIncorrectRuns
              | Some _ => ret tt
              end
          | None => ret tt
          end
      | None => ret tt
      end
  | SUBMISSION_RESPONSE submissionData =>
      if bool_decide (sub_success submissionData = Some true) then
        handleSuccessfulSubmission env submissionData
      else
        modify_this (λ x, set_incorrectRunCounter (incorrectRunCounter x + 1) x);;
        x ← get_this;
        when_ ((3 <=? incorrectRunCounter x) && negb (hasAnalyzedMistakes x))
          handleThreeIncorrectRuns
  end.

(** The check made by [observeUrlChanges] every four seconds: on a new
    path the tracking state starts afresh. *)
Definition onUrlCheck (env : page) : M extractor unit :=
  x ← get_this;
  if bool_decide (currentPathname x ≠ pathname env) then
    modify_this (set_currentPathname (pathname env));;
    modify_this (set_TRIES 0);;
    modify_this (set_attempts []);;
    modify_this (set_runCounter 0);;
    modify_this (set_incorrectRunCounter 0);;
    modify_this (set_hasAnalyzedMistakes false);;
    modify_this (set_shouldAnalyzeWithGemini false);;
    modify_this (set_ai None [])
  else ret tt.

(** What the script reacts to, with the surroundings at that moment. *)
Inductive event : Type :=
| Message (env : page) (msg : message)
| UrlCheck (env : page).

Definition handle (e : event) : M extractor unit :=
  match e with
  | Message env msg => onMessage env msg
  | UrlCheck env => onUrlCheck env
  end.

(** Delivering a sequence of events, oldest first. *)
Fixpoint run (evs : list event) (s : extractor * storage) : extractor * storage :=
  match evs with
  | [] => s
  | e :: evs' => run evs' (exec (handle e) s)
  end.

(** ** The tracker read as state transformers *)

(** The latching action on the extractor. *)
Definition latch (x : extractor) : extractor :=
  set_shouldAnalyzeWithGemini true (set_hasAnalyzedMistakes true x).

(** The extractor after a [SUBMISSION_RESPONSE] that is not a success. *)
Definition after_failed_submission (x : extractor) : extractor :=
  let x1 := set_incorrectRunCounter (incorrectRunCounter x + 1) x in
  if (3 <=? incorrectRunCounter x1) && negb (hasAnalyzedMistakes x1)
  then latch x1 else x1.

(** Whether a run result counts as a success. *)
Definition accepted (success : option bool) (status : option string) : bool :=
  bool_decide (success = Some true) || bool_decide (status = Some "Accepted").

(** The extractor after a [RUN_RESPONSE]. *)
Definition after_run_response (success : option bool) (status : option string)
    (x : extractor) : extractor :=
  match last_run_index (attempts x) with
  | Some i =>
      match attempts x !! i with
      | Some lastAttempt =>
          match a_successful lastAttempt with
          | None =>
              if accepted success status then
                set_attempts
                  (<[i := set_successful (Some true) lastAttempt]> (attempts x)) x
              else
                let x1 :=
                  set_incorrectRunCounter (incorrectRunCounter x + 1)
                    (set_attempts
                       (<[i := set_successful (Some false) lastAttempt]> (attempts x))
                       x) in
                if (2 <=? incorrectRunCounter x1) && negb (hasAnalyzedMistakes x1)
                then latch x1 else x1
          | Some _ => x
          end
      | None => x
      end
  | None => x
  end.

(** The extractor after a [CODE_RUN]. *)
Definition after_code_run (env : page) (usercode language : option string)
    (x : extractor) : extractor :=
  let x1 := set_runCounter (runCounter x + 1) x in
  let code := str_or (default "" usercode) (PUBLIC_CODE x1) in
  let language := str_or (default "" language) (SELECTED_LANGUAGE x1) in
  if truthy_str code && (10 <? str_length code)
  then set_attempts
         (attempts x1 ++ [Attempt code language (iso_now env) "run"
                                  (runCounter x1) None]) x1
  else x1.

(** ** Counting over attempts and events *)

(** The attempts whose run has failed. *)
Definition failed_runs (l : list attempt) : Z :=
  Z.of_nat (length (List.filter (λ a, bool_decide (a_successful a = Some false)) l)).

(** A [SUBMISSION_RESPONSE] that is not a success. *)
Definition failed_submission (e : event) : bool :=
  match e with
  | Message _ (SUBMISSION_RESPONSE sub) =>
      negb (bool_decide (sub_success sub = Some true))
  | _ => false
  end.

Definition failed_submits (evs : list event) : Z :=
  Z.of_nat (length (List.filter failed_submission evs)).

(** The number of times the latch goes from unset to set while a sequence of
    events is delivered. *)
Fixpoint latchings (evs : list event) (s : extractor * storage) : nat :=
  match evs with
  | [] => 0%nat
  | e :: evs' =>
      let s' := exec (handle e) s in
      ((if negb (hasAnalyzedMistakes (fst s)) && hasAnalyzedMistakes (fst s')
        then 1 else 0) + latchings evs' s')%nat
  end.


(** An event that leaves the problem identity [p] in place and is not a
    successful submission. *)
Definition keeps_tracking (p : string) (e : event) : Prop :=
  match e with
  | UrlCheck env => pathname env = p
  | Message _ (SUBMISSION_RESPONSE sub) => sub_success sub ≠ Some true
  | Message _ _ => True
  end.

(** The transient attempt state is the one of a fresh script. *)
Definition cleared (x : extractor) : Prop :=
  TRIES x = 0 ∧ PUBLIC_CODE x = "" ∧ SELECTED_LANGUAGE x = ""
  ∧ PROBLEM_SLUG x = "" ∧ attempts x = [] ∧ runCounter x = 0
  ∧ incorrectRunCounter x = 0 ∧ hasAnalyzedMistakes x = false
  ∧ shouldAnalyzeWithGemini x = false ∧ aiAnalysis x = None ∧ aiTags x = [].

(** How an attempt may differ after further events: not at all, or resolved
    from pending. *)
Definition attempt_evolves (a a' : attempt) : Prop :=
  (a_successful a ≠ None → a' = a)
  ∧ (a' = a ∨ ∃ b, a_successful a = None ∧ a' = set_successful (Some b) a).

(** The attempt at index [i] is the most recent attempt of type run. *)
Definition most_recent_run (l : list attempt) (i : nat) (a : attempt) : Prop :=
  l !! i = Some a ∧ a_type a = "run"
  ∧ ∀ j b, (i < j)%nat → l !! j = Some b → a_type b ≠ "run".

(** A pending run attempt of [x] is marked failed in [x']. *)
Definition marked_failed (x x' : extractor) : Prop :=
  ∃ i a, attempts x !! i = Some a ∧ a_type a = "run" ∧ a_successful a = None
         ∧ attempts x' !! i = Some (set_successful (Some false) a).

(** A run of [code] whose result is a failure. *)
Definition failed_run (env : page) (code : string) (language status : option string)
    : list event :=
  [Message env (CODE_RUN (Some code) language);
   Message env (RUN_RESPONSE (Some false) status)].

(** The attempt-tracking fields of the extractor, and the cached code. *)
Definition tracking (x : extractor)
    : list attempt * Z * Z * bool * bool * Z * option string * list string :=
  (attempts x, runCounter x, incorrectRunCounter x, hasAnalyzedMistakes x,
   shouldAnalyzeWithGemini x, TRIES x, aiAnalysis x, aiTags x).

Definition cached (x : extractor) : string * string * string :=
  (PUBLIC_CODE x, SELECTED_LANGUAGE x, PROBLEM_SLUG x).

(** The cached code of [x'] is that of [x] with each field replaced by the
    stored one when the stored one is not empty. *)
Definition restored_from (data : code_data) (x x' : extractor) : Prop :=
  PUBLIC_CODE x' = str_or (cd_PUBLIC_CODE data) (PUBLIC_CODE x)
  ∧ SELECTED_LANGUAGE x' = str_or (cd_SELECTED_LANGUAGE data) (SELECTED_LANGUAGE x)
  ∧ PROBLEM_SLUG x' = str_or (cd_PROBLEM_SLUG data) (PROBLEM_SLUG x).

(** The extractor after the assignments of [reset_state]. *)
Definition after_reset_state (x : extractor) : extractor :=
  Extractor (QUES x) (DESCRIPTION x) (DIFFICULTY x) "" "" "" 0
            (currentProblem x) (currentPathname x) [] 0 0 false false None []
            (effects x).

(** Two storages that differ at most in the problem records and in the
    failure schedule; an empty schedule stays empty. *)
Definition same_settings (st st' : storage) : Prop :=
  tuf_code_data st' = tuf_code_data st
  ∧ github_push_enabled st' = github_push_enabled st
  ∧ gemini_api_key st' = gemini_api_key st
  ∧ (faults st = [] → faults st' = []).

(** The fields on which the latch depends, with the problem identity. *)
Definition latch_fields (x : extractor)
    : bool * bool * Z * Z * list attempt * Z * string :=
  (hasAnalyzedMistakes x, shouldAnalyzeWithGemini x, incorrectRunCounter x,
   runCounter x, attempts x, TRIES x, currentPathname x).


(** ** The properties as they are stated *)

(** Submission failures have a counter of their own: a failed submit never
    moves the run-failure counter, and analysis is latched only when the
    failed runs reach 2 or the failed submits reach 3. *)
Definition submit_failures_counted_apart : Prop :=
  (∀ (env : page) (sub : submission) (s : extractor * storage),
     sub_success sub ≠ Some true →
     incorrectRunCounter (fst (exec (onMessage env (SUBMISSION_RESPONSE sub)) s))
     = incorrectRunCounter (fst s))
  ∧ (∀ (p : string) (evs : list event) (st : storage),
       Forall (keeps_tracking p) evs →
       let x := fst (run evs (constructor p, st)) in
       hasAnalyzedMistakes x = true →
       2 ≤ failed_runs (attempts x) ∨ 3 ≤ failed_submits evs).

(** The run-failure counter grows exactly when a pending run attempt is
    marked failed. *)
Definition run_failures_as_stated : Prop :=
  ∀ (env : page) (msg : message) (s : extractor * storage),
    let x := fst s in
    let x' := fst (exec (onMessage env msg) s) in
    incorrectRunCounter x < incorrectRunCounter x' ↔ marked_failed x x'.


(** On a successful submission the transient state is cleared exactly when
    the GitHub push succeeds or the push toggle is off. *)
Definition cleared_iff_pushed_or_disabled : Prop :=
  ∀ (env : page) (sub : submission) (s : extractor * storage),
    sub_success sub = Some true →
    let s' := exec (onMessage env (SUBMISSION_RESPONSE sub)) s in
    cleared (fst s') ↔
      (github env = Ok GitHubPushed ∨ github_push_enabled (snd s) = Some false).

(** Extraction on this page, in this state, yields no title or no code of at
    least ten characters. *)
Definition extraction_incomplete (env : page) (s : extractor * storage) : Prop :=
  fst (extractProblemInfo env s) = Ok None
  ∨ ∃ info, fst (extractProblemInfo env s) = Ok (Some info)
            ∧ str_length (pi_code info) < 10.

(** When extraction is incomplete, a successful submission writes no record,
    runs no later stage and leaves the attempt-tracking state, cached code
    included, as it was. *)
Definition abort_leaves_state_unchanged : Prop :=
  ∀ (env : page) (sub : submission) (s : extractor * storage),
    sub_success sub = Some true →
    extraction_incomplete env s →
    let s' := exec (onMessage env (SUBMISSION_RESPONSE sub)) s in
    problem_data (snd s') = problem_data (snd s)
    ∧ effects (fst s') = effects (fst s)
    ∧ attempts (fst s') = attempts (fst s)
    ∧ runCounter (fst s') = runCounter (fst s)
    ∧ incorrectRunCounter (fst s') = incorrectRunCounter (fst s)
    ∧ hasAnalyzedMistakes (fst s') = hasAnalyzedMistakes (fst s)
    ∧ shouldAnalyzeWithGemini (fst s') = shouldAnalyzeWithGemini (fst s)
    ∧ PUBLIC_CODE (fst s') = PUBLIC_CODE (fst s)
    ∧ SELECTED_LANGUAGE (fst s') = SELECTED_LANGUAGE (fst s)
    ∧ PROBLEM_SLUG (fst s') = PROBLEM_SLUG (fst s).

(** A sequence of writes of problem records, oldest first. *)
Fixpoint store_all (calls : list (page * problem_info * bool))
    (s : extractor * storage) : extractor * storage :=
  match calls with
  | [] => s
  | (env, problemInfo, solved) :: calls' =>
      store_all calls' (exec (storeProblemData env problemInfo solved) s)
  end.

(** A page of the site on which heading and description are found, with the
    remote services failing except GitHub, and a problem extracted from it. *)
Definition demo_page : page :=
  Page (Some "Two Sum") (Some "Find two numbers.") (Some "Easy")
       "https://takeuforward.org/plus/dsa/two-sum?category=arrays"
       "/plus/dsa/two-sum" (Some "arrays") 5000 "2026-01-01T00:00:05.000Z" None
       GeminiAPI.demo_ops GeminiAPI.offline
       (Ok (BackendFailed "HTTP 500")) (Ok GitHubPushed) true.

Definition demo_code : string := "int main() { return 0; }".

Definition demo_problem : problem_info :=
  ProblemInfo "Two Sum" "Find two numbers." 0
              "https://takeuforward.org/plus/dsa/two-sum" "cpp" demo_code
              "two-sum" ["Arrays"] None.

(** A record stored as solved at time 4000 after two tries. *)
Definition demo_solved_record : record :=
  <["solved" := solved_object true 4000 2]> (<["name" := JStr "Two Sum"]> ∅).

Definition demo_solved_storage : storage :=
  Storage (<[pi_url demo_problem := demo_solved_record]> ∅) None None None None false [].

Definition demo_accepted : submission :=
  Submission (Some true) (Some "Accepted") (Some 12) (Some 12) (Some "0.01s")
             (Some "8 MB").

Definition demo_rejected : submission :=
  Submission (Some false) (Some "Wrong Answer") (Some 12) (Some 7) (Some "0.01s")
             (Some "8 MB").

Definition demo_failed_run : list event :=
  failed_run demo_page demo_code (Some "cpp") (Some "Wrong Answer").

(** A fresh script on the page of the problem, with an empty storage. *)
Definition demo_fresh : extractor * storage :=
  (constructor "/plus/dsa/two-sum", ProblemTimer.demo_storage).



(** One failed run followed by two failed submissions. *)
Definition demo_run_then_two_submits : list event :=
  demo_failed_run
  ++ [Message demo_page (SUBMISSION_RESPONSE demo_rejected);
      Message demo_page (SUBMISSION_RESPONSE demo_rejected)].


(** The same page before the heading has been rendered. *)
Definition demo_untitled_page : page :=
  Page None None (Some "Easy")
       "https://takeuforward.org/plus/dsa/two-sum?category=arrays"
       "/plus/dsa/two-sum" (Some "arrays") 5000 "2026-01-01T00:00:05.000Z" None
       GeminiAPI.demo_ops GeminiAPI.offline
       (Ok (BackendFailed "HTTP 500")) (Ok (GitHubFailed "HTTP 401")) true.

(** The script after the user has submitted [demo_code], with the GitHub
    push switched off in the settings. *)
Definition demo_submitted_push_disabled : extractor * storage :=
  run [Message demo_page (CODE_SUBMIT (Some "cpp") (Some demo_code) (Some "two-sum"))]
      (constructor "/plus/dsa/two-sum", Storage ∅ None None (Some false) None false []).

(** The script after the user has submitted [demo_code], with default
    settings. *)
Definition demo_submitted : extractor * storage :=
  run [Message demo_page (CODE_SUBMIT (Some "cpp") (Some demo_code) (Some "two-sum"))]
      demo_fresh.

(** A freshly loaded script, while the storage still holds the code submitted
    one second earlier. *)
Definition demo_reloaded : extractor * storage :=
  (constructor "/plus/dsa/two-sum",
   Storage ∅ (Some (CodeData "cpp" demo_code "two-sum" 4000)) None None None false []).

End TakeUforward.

(* ===================================================================== *)
(** * Verified properties *)
(* ===================================================================== *)

(** Unfolding the handler combinators. *)
Ltac unfold_monad :=
  unfold try_catch, local_get_problem, local_set_problem, local_set_position,
    local_get_code_data, local_set_code_data, local_remove_code_data,
    sync_get_github_push_enabled, storage_call, exec, when_, lift, throw,
    modify_this, get_this, mbind, M_bind, bind, mret, M_ret, ret in *.

(** ** The session timer *)

Section TimerProperties.

Import ProblemTimer.

(** [saveToStorage] swallows storage failures and does not touch the timer. *)
Lemma saveToStorage_this (s : timer * storage) :
  fst (saveToStorage s) = Ok tt ∧ fst (snd (saveToStorage s)) = fst s.
Proof.
  destruct s as [t [pd tcd top gpe gak bsr fs]]. unfold saveToStorage.
  unfold_monad; simpl.
  destruct (problemUrl t) as [url|]; [|done].
  destruct (truthy_str url); [|done]. simpl.
  destruct fs as [|[] [|[] [|[] fs]]]; simpl; done.
Qed.

Lemma onVisibilityChange_this (e : vis_event) (s : timer * storage) :
  fst (onVisibilityChange (vis_now e) (vis_hidden e) s) = Ok (vis_suspends e (fst s))
  ∧ fst (snd (onVisibilityChange (vis_now e) (vis_hidden e) s))
    = vis_delivered e (fst s).
Proof.
  destruct s as [t st], e as [now hidden].
  unfold onVisibilityChange, vis_delivered, vis_suspends. cbn [vis_now vis_hidden fst].
  destruct hidden; [split; reflexivity|]. cbn [negb andb].
  unfold mbind, M_bind, bind, modify_this, get_this, ret.
  cbn [fst snd tabHiddenAt startTime pausedTime set_isTabHidden].
  destruct (truthy_num (tabHiddenAt t) && truthy_num (startTime t));
    [|split; reflexivity].
  pose proof (saveToStorage_this
    (set_pausedTime (pausedTime t + (now - to_number (tabHiddenAt t)))
       (set_isTabHidden false t), st)) as [H1 H2].
  destruct (saveToStorage _) as [o [t' st']]. cbn [fst snd] in *. subst. by split.
Qed.









(** [loadFromStorage] swallows storage failures and assigns at most the
    start time, the paused time and the overlay position. *)
Lemma loadFromStorage_this (t : timer) (st : storage) :
  fst (loadFromStorage (t, st)) = Ok tt
  ∧ ∃ a p x y,
      fst (snd (loadFromStorage (t, st)))
      = set_position x y (set_pausedTime p (set_startTime a t)).
Proof.
  assert (Hid : ∃ a p x y, t = set_position x y (set_pausedTime p (set_startTime a t))).
  { exists (startTime t), (pausedTime t), (currentX t), (currentY t). by destruct t. }
  destruct st as [pd tcd top gpe gak bsr fs]. unfold loadFromStorage.
  unfold_monad; simpl.
  destruct (problemUrl t) as [url|]; [|by split].
  destruct (truthy_str url); [|by split]. simpl.
  destruct fs as [|[] fs]; simpl; [|by split|].
  - destruct bsr; simpl; [by split|].
    destruct top as [[x y]|]; simpl; split; try done.
    + by do 4 eexists.
    + exists (as_number (default ∅ (pd !! url) !! "problemStartTime")),
        (num_or (default 0 (as_number (default ∅ (pd !! url) !! "pausedTime"))) 0),
        (currentX t), (currentY t). reflexivity.
  - destruct bsr; simpl.
    + destruct fs as [|[] fs]; simpl; by split.
    + destruct fs as [|[] fs]; simpl; [|by split|].
      * destruct top as [[x y]|]; simpl; split; try done.
        -- by do 4 eexists.
        -- exists (as_number (default ∅ (pd !! url) !! "problemStartTime")),
             (num_or (default 0 (as_number (default ∅ (pd !! url) !! "pausedTime"))) 0),
             (currentX t), (currentY t). reflexivity.
      * destruct fs as [|[] fs]; simpl.
        -- destruct top as [[x y]|]; simpl; split; try done.
           ++ by do 4 eexists.
           ++ exists (as_number (default ∅ (pd !! url) !! "problemStartTime")),
                (num_or (default 0 (as_number (default ∅ (pd !! url) !! "pausedTime"))) 0),
                (currentX t), (currentY t). reflexivity.
        -- split; [done|].
           exists (as_number (default ∅ (pd !! url) !! "problemStartTime")),
             (num_or (default 0 (as_number (default ∅ (pd !! url) !! "pausedTime"))) 0),
             (currentX t), (currentY t). reflexivity.
        -- destruct top as [[x y]|]; simpl; split; try done.
           ++ by do 4 eexists.
           ++ exists (as_number (default ∅ (pd !! url) !! "problemStartTime")),
                (num_or (default 0 (as_number (default ∅ (pd !! url) !! "pausedTime"))) 0),
                (currentX t), (currentY t). reflexivity.
Qed.

(** [startTimer] leaves a started timer: whenever no hidden interval was
    recorded before and the clock reading is not zero, the timer has a start
    time afterwards and still no recorded interval. This covers the timer
    fresh from its constructor, in a visible or in a hidden tab. *)
Lemma startTimer_started (now : Z) (url : string) (t : timer) (st : storage) :
  now ≠ 0 → truthy_str url = true → tabHiddenAt t = None →
  started (fst (exec (startTimer now url) (t, st)))
  ∧ isTabHidden (fst (exec (startTimer now url) (t, st))) = isTabHidden t.
Proof.
  intros Hnow Hurl Hnone.
  set (P := λ t2 : timer, started t2 ∧ isTabHidden t2 = isTabHidden t).
  change (P (fst (exec (startTimer now url) (t, st)))).
  assert (Hnz : negb (now =? 0) = true) by by apply negb_true_iff, Z.eqb_neq.
  unfold startTimer, exec. rewrite Hurl. simpl.
  unfold mbind at 1, M_bind, bind, get_this. cbn [fst snd].
  destruct (bool_decide (problemUrl t = Some url) && truthy_num (startTime t))
    eqn:Hsame.
  { apply andb_true_iff in Hsame as [_ Hstart]. unfold ret. simpl.
    split; [by split|reflexivity]. }
  unfold mbind at 1 2, M_bind, bind, modify_this. cbn [fst snd].
  destruct (loadFromStorage_this (set_problemUrl (Some url) t) st)
    as (Hok & a & p & x & y & Hload).
  destruct (loadFromStorage (set_problemUrl (Some url) t, st)) as [o [t1 st1]].
  simpl in Hok, Hload. subst o t1.
  unfold mbind at 1 2, M_bind, bind, get_this. cbn [fst snd].
  set (t1 := set_position x y
               (set_pausedTime p (set_startTime a (set_problemUrl (Some url) t)))).
  assert (Hfinal : ∀ t2 : timer, P t2 → P (fst (snd (saveToStorage (t2, st1))))).
  { intros t2 H2. by destruct (saveToStorage_this (t2, st1)) as [_ ->]. }
  destruct (truthy_num (startTime t1)) eqn:Hstart; simpl.
  - unfold modify_this. cbn [fst snd]. apply Hfinal.
    unfold getElapsedActiveTime. rewrite Hstart. simpl.
    match goal with |- context [?e <? 0] => destruct (e <? 0) end; simpl.
    + split; [by split|reflexivity].
    + split; [by split|reflexivity].
  - unfold mbind, M_bind, bind, modify_this. cbn [fst snd]. apply Hfinal.
    split; [by split|reflexivity].
Qed.



(** A hide event that is delivered while the listener of the preceding show
    event waits for its save is not recorded: when that listener resumes it
    clears [tabHiddenAt], the tab stays flagged hidden, and from then on
    [getElapsedActiveTime()] subtracts nothing for the interval that began
    at [h2]: it returns the wall-clock time since the start minus the paused
    time, in which only the interval from [h1] to [s1] is counted. *)
Theorem hide_during_save_is_not_recorded
    (t0 : timer) (st : storage) (h1 s1 h2 now : Z) :
  started t0 →
  h1 ≠ 0 →
  to_number (startTime t0) + pausedTime t0 + (s1 - h1) ≤ now →
  let t := fst (fst (run_visibility
                       [Deliver (Vis h1 true); Deliver (Vis s1 false);
                        Deliver (Vis h2 true); Resume] (t0, st, 0%nat))) in
  isTabHidden t = true
  ∧ tabHiddenAt t = None
  ∧ pausedTime t = pausedTime t0 + (s1 - h1)
  ∧ getElapsedActiveTime now t
    = (now - to_number (startTime t0) - pausedTime t0 - (s1 - h1), t).
Proof.
  intros [Hstart Hnone] Hh1 Hnow t.
  assert (Hh1' : negb (h1 =? 0) = true) by by apply negb_true_iff, Z.eqb_neq.
  assert (Ht : t = set_tabHiddenAt None
                     (set_isTabHidden true
                        (set_pausedTime (pausedTime t0 + (s1 - h1)) t0))).
  { subst t. cbn [run_visibility].
    set (s1' := vis_act (Deliver (Vis h1 true)) (t0, st, 0%nat)).
    assert (H1 : s1' = (set_tabHiddenAt (Some h1) (set_isTabHidden true t0), st, 0%nat))
      by reflexivity.
    rewrite H1. clear H1 s1'.
    set (ta := set_tabHiddenAt (Some h1) (set_isTabHidden true t0)).
    destruct (onVisibilityChange_this (Vis s1 false) (ta, st)) as [Ho Hd].
    unfold vis_act at 3. cbn [fst snd vis_now vis_hidden] in *.
    destruct (onVisibilityChange s1 false (ta, st)) as [o [tb stb]].
    cbn [fst snd] in *. subst o tb.
    assert (Hsus : vis_suspends (Vis s1 false) ta = true).
    { unfold vis_suspends, ta. cbn. by rewrite Hh1', Hstart. }
    rewrite Hsus.
    assert (Hdel : vis_delivered (Vis s1 false) ta
                   = set_pausedTime (pausedTime t0 + (s1 - h1))
                       (set_isTabHidden false ta)).
    { unfold vis_delivered, ta. cbn. by rewrite Hh1', Hstart. }
    rewrite Hdel. subst ta. destruct t0; reflexivity. }
  rewrite Ht. cbn [isTabHidden tabHiddenAt pausedTime set_tabHiddenAt
                   set_isTabHidden set_pausedTime].
  split; [done|]. split; [done|]. split; [done|].
  unfold getElapsedActiveTime.
  cbn [isTabHidden tabHiddenAt pausedTime startTime set_tabHiddenAt
       set_isTabHidden set_pausedTime truthy_num andb].
  rewrite Hstart. cbn [negb].
  destruct (Z.ltb_spec (now - to_number (startTime t0) - (pausedTime t0 + (s1 - h1))) 0);
    [lia|]. f_equal. lia.
Qed.

(** The tab hidden at 2000, shown at 5000 and hidden again at 6000 before
    the show listener resumed, read at 61000. *)
Lemma hide_during_save_is_not_recorded_witness :
  getElapsedActiveTime 61000
    (fst (fst (run_visibility demo_hide_during_save
                 (demo_timer, demo_storage, 0%nat))))
  = (57000, Timer (Some "two-sum") (Some 1000) 3000 true None 20 30).
Proof.
  destruct (hide_during_save_is_not_recorded demo_timer demo_storage
              2000 5000 6000 61000) as (_ & _ & _ & H).
  - split; reflexivity.
  - lia.
  - simpl. lia.
  - exact H.
Defined.

(** C1: the failing input. A timer constructed while the tab is hidden and
    started at 1000 is flagged hidden with no start of the hidden interval
    recorded; with no visibility event delivered since, so that the tab has
    been hidden all along, [getElapsedActiveTime()] read at 61000 subtracts
    nothing for the hidden interval: it returns 60000 and leaves the timer
    as it is. *)
Theorem hidden_tab_time_reported_as_active :
  let t := fst (exec (startTimer 1000 "two-sum")
                     (constructor true 20 30, demo_storage)) in
  isTabHidden t = true
  ∧ tabHiddenAt t = None
  ∧ startTime t = Some 1000
  ∧ pausedTime t = 0
  ∧ getElapsedActiveTime 61000 t = (60000, t).
Proof. vm_compute. repeat split. Qed.

(** C1, as stated, fails for a timer constructed in a hidden tab: until the
    first visibility event the tab is flagged hidden but no interval is
    recorded, and the whole wall-clock time is reported as active. *)
Lemma elapsed_counts_unrecorded_hidden_time : ¬ elapsed_as_stated.
Proof.
  intros H.
  specialize (H demo_hidden_timer demo_storage [] 61000).
  destruct H as [_ H]; [split; reflexivity|].
  vm_compute in H. discriminate H.
Qed.

(** What [saveToStorage()] leaves in the storage: either nothing was written
    under the problem's key, or the record read from it was written back with
    the two timer fields assigned. *)
Lemma saveToStorage_storage (t : timer) (st : storage) (url : string) :
  problemUrl t = Some url →
  let st' := snd (exec saveToStorage (t, st)) in
  (problem_data st' = problem_data st
   ∨ problem_data st' =
       <[url := <["pausedTime" := JNum (pausedTime t)]>
                  (<["problemStartTime" := num_val (startTime t)]>
                     (default ∅ (problem_data st !! url)))]> (problem_data st))
  ∧ (truthy_str url = true → faults st = [] →
     problem_data st' =
       <[url := <["pausedTime" := JNum (pausedTime t)]>
                  (<["problemStartTime" := num_val (startTime t)]>
                     (default ∅ (problem_data st !! url)))]> (problem_data st)).
Proof.
  intros Hurl. destruct st as [pd tcd top gpe gak bsr fs].
  unfold saveToStorage. unfold_monad; simpl. rewrite Hurl.
  destruct (truthy_str url); simpl.
  - destruct fs as [|[] [|[] [|[] fs]]]; simpl; split; auto; discriminate.
  - split; [by left|discriminate].
Qed.

(** The record that [saveToStorage()] writes: the timer's two fields over
    the fields read from the storage. *)
Lemma written_record_fields (t : timer) (st : storage) (url : string)
    (pd : gmap string record) :
  pd = <[url := <["pausedTime" := JNum (pausedTime t)]>
                  (<["problemStartTime" := num_val (startTime t)]>
                     (default ∅ (problem_data st !! url)))]> (problem_data st) →
  ∃ r' : record,
    pd !! url = Some r'
    ∧ r' !! "problemStartTime" = Some (num_val (startTime t))
    ∧ r' !! "pausedTime" = Some (JNum (pausedTime t))
    ∧ ∀ f, f ≠ "problemStartTime" → f ≠ "pausedTime" →
        r' !! f = default ∅ (problem_data st !! url) !! f.
Proof.
  intros ->. eexists. split; [apply lookup_insert_eq|].
  split; [by rewrite lookup_insert_ne, lookup_insert_eq|].
  split; [by rewrite lookup_insert_eq|].
  intros f Hf1 Hf2. by rewrite !lookup_insert_ne.
Qed.

(** With a problem URL and a storage that answers, [saveToStorage()] leaves
    the timer's fields in the stored record. *)
Lemma saveToStorage_persists (t : timer) (st : storage) (url : string) :
  problemUrl t = Some url →
  truthy_str url = true →
  faults st = [] →
  persisted t (snd (exec saveToStorage (t, st))).
Proof.
  intros Hurl Htruthy Hfaults url' Hurl'.
  rewrite Hurl in Hurl'. injection Hurl' as <-.
  destruct (saveToStorage_storage t st url Hurl) as [_ Hwrite].
  destruct (written_record_fields t st url _ (Hwrite Htruthy Hfaults))
    as (r' & H1 & H2 & H3 & _).
  by exists r'.
Qed.

(** C9: every write made by [saveToStorage()] keeps the non-timer fields of
    the stored record: under the problem's key the storage afterwards holds
    either what it held before, or a record whose [problemStartTime] and
    [pausedTime] are the timer's and whose every other field is the one read
    from the storage (none when nothing was stored); records under other keys
    are not touched; with a non-empty problem URL and no storage failure the
    write is made. *)
Theorem saveToStorage_keeps_other_fields
    (t : timer) (st : storage) (url : string) :
  problemUrl t = Some url →
  let st' := snd (exec saveToStorage (t, st)) in
  (problem_data st' !! url = problem_data st !! url
   ∨ ∃ r' : record,
       problem_data st' !! url = Some r'
       ∧ r' !! "problemStartTime" = Some (num_val (startTime t))
       ∧ r' !! "pausedTime" = Some (JNum (pausedTime t))
       ∧ ∀ f, f ≠ "problemStartTime" → f ≠ "pausedTime" →
           r' !! f = default ∅ (problem_data st !! url) !! f)
  ∧ (∀ k, k ≠ url → problem_data st' !! k = problem_data st !! k)
  ∧ (truthy_str url = true → faults st = [] → persisted t st').
Proof.
  intros Hurl st'.
  destruct (saveToStorage_storage t st url Hurl) as [Hcases Hwrite].
  fold st' in Hcases, Hwrite.
  split; [|split].
  - destruct Hcases as [-> | Heq]; [by left|right].
    by apply (written_record_fields t st url).
  - intros k Hk. destruct Hcases as [-> | ->]; [done|by rewrite lookup_insert_ne].
  - intros Htruthy Hfaults. by apply (saveToStorage_persists t st url).
Qed.

(** Saving the timer started at 1000 into a storage in which the problem
    has a record with a name: the name is still there afterwards, next to
    the timer fields of the timer. *)
Lemma saveToStorage_keeps_other_fields_witness :
  ∃ r' : record,
    problem_data (snd (exec saveToStorage (demo_timer, demo_recorded_storage)))
      !! "two-sum" = Some r'
    ∧ r' !! "name" = Some (JStr "Two Sum")
    ∧ r' !! "problemStartTime" = Some (JNum 1000)
    ∧ r' !! "pausedTime" = Some (JNum 0).
Proof.
  destruct (saveToStorage_keeps_other_fields demo_timer demo_recorded_storage
              "two-sum" eq_refl) as ([Hsame|(r' & Hr' & Hstart & Hpaused & Hother)] & _).
  - vm_compute in Hsame. discriminate Hsame.
  - exists r'. split; [exact Hr'|]. split; [|split; [exact Hstart|exact Hpaused]].
    rewrite Hother by discriminate. reflexivity.
Defined.

(** The object after [reset()] and after [resetTimer()]. *)
Lemma reset_this (now : Z) (hidden : bool) (t : timer) (st : storage) :
  exec (reset now hidden) (t, st) =
    (Timer (problemUrl t) (Some now) 0 hidden None (currentX t) (currentY t), st).
Proof. reflexivity. Qed.

Lemma resetTimer_this (now : Z) (hidden : bool) (t : timer) (st : storage) :
  exec (resetTimer now hidden) (t, st) =
    exec saveToStorage
      (Timer (problemUrl t) (Some now) 0 hidden None (currentX t) (currentY t), st).
Proof. reflexivity. Qed.

Lemma elapsed_after_reset (now : Z) (hidden : bool) (url : option string) (x y : Z) :
  fst (getElapsedActiveTime now (Timer url (Some now) 0 hidden None x y)) = 0.
Proof.
  unfold getElapsedActiveTime; simpl.
  destruct (now =? 0); simpl; [reflexivity|].
  rewrite andb_false_r.
  replace (now - now - 0) with 0 by lia. reflexivity.
Qed.

(** C8, as amended: after [reset()] completes, [startTime] is the reset time,
    [pausedTime] is 0, the hidden interval is cleared and
    [getElapsedActiveTime()] at the same instant returns 0, while the storage
    is exactly what it was: [reset()] writes nothing. [resetTimer()] makes the
    same assignments and then saves: with a non-empty problem URL and no
    storage failure the stored record carries the new timer fields when it
    completes. *)
Theorem reset_clears_and_resetTimer_persists
    (now : Z) (hidden : bool) (t : timer) (st : storage) :
  let s1 := exec (reset now hidden) (t, st) in
  let s2 := exec (resetTimer now hidden) (t, st) in
  (startTime (fst s1) = Some now
   ∧ pausedTime (fst s1) = 0
   ∧ isTabHidden (fst s1) = hidden
   ∧ tabHiddenAt (fst s1) = None
   ∧ snd s1 = st
   ∧ fst (getElapsedActiveTime now (fst s1)) = 0)
  ∧ (fst s2 = fst s1
     ∧ fst (getElapsedActiveTime now (fst s2)) = 0
     ∧ ∀ url, problemUrl t = Some url → truthy_str url = true → faults st = [] →
         persisted (fst s2) (snd s2)).
Proof.
  intros s1 s2. subst s1 s2. rewrite reset_this, resetTimer_this. simpl.
  split.
  - repeat split; try reflexivity. apply elapsed_after_reset.
  - set (t' := Timer (problemUrl t) (Some now) 0 hidden None (currentX t) (currentY t)).
    pose proof (saveToStorage_this (t', st)) as [_ Hsame].
    assert (Hfst : fst (exec saveToStorage (t', st)) = t') by exact Hsame.
    rewrite Hfst. split; [reflexivity|]. split; [apply elapsed_after_reset|].
    intros url Hurl Htruthy Hfaults.
    by apply (saveToStorage_persists t' st url).
Qed.

(** [resetTimer()] at 9000 on the timer of problem two-sum. *)
Lemma reset_clears_and_resetTimer_persists_witness :
  persisted (fst (exec (resetTimer 9000 false) (demo_timer, demo_storage)))
            (snd (exec (resetTimer 9000 false) (demo_timer, demo_storage))).
Proof.
  destruct (reset_clears_and_resetTimer_persists 9000 false demo_timer demo_storage)
    as (_ & _ & _ & Hpersisted).
  apply (Hpersisted "two-sum"); reflexivity.
Defined.

(** C8, as stated, fails: [reset()] does not write the new timer state to the
    storage. *)
Lemma reset_does_not_persist : ¬ reset_as_stated.
Proof.
  intros H.
  destruct (H 9000 false demo_timer demo_storage) as (_ & _ & _ & Hp & _).
  destruct (Hp "two-sum" eq_refl) as (r & Hr & _).
  rewrite reset_this in Hr. simpl in Hr.
  rewrite lookup_empty in Hr. discriminate Hr.
Qed.

End TimerProperties.

(** ** The problem record *)

Section RecordProperties.

Import TakeUforward.

(** [storeProblemData] never raises and never touches the extractor; it
    either writes the record built from the stored one, or writes nothing. *)
Lemma storeProblemData_cases (env : page) (info : problem_info) (solved : bool)
    (x : extractor) (st : storage) :
  let r := storeProblemData env info solved (x, st) in
  let pd := problemData_of env info solved x
              (default ∅ (problem_data st !! pi_url info)) in
  fst (snd r) = x
  ∧ ((fst r = Ok None ∧ problem_data (snd (snd r)) = problem_data st)
     ∨ (fst r = Ok (Some pd)
        ∧ problem_data (snd (snd r)) = <[pi_url info := pd]> (problem_data st)))
  ∧ tuf_code_data (snd (snd r)) = tuf_code_data st
  ∧ github_push_enabled (snd (snd r)) = github_push_enabled st
  ∧ gemini_api_key (snd (snd r)) = gemini_api_key st
  ∧ (faults st = [] →
     faults (snd (snd r)) = []
     ∧ fst r = Ok (Some pd)
     ∧ problem_data (snd (snd r)) = <[pi_url info := pd]> (problem_data st)).
Proof.
  destruct st as [pd0 tcd top gpe gak bsr fs].
  unfold storeProblemData. unfold_monad. simpl.
  destruct fs as [|[] [|[] fs]]; simpl; repeat split; auto; discriminate.
Qed.

Lemma problemData_of_solved (env : page) (info : problem_info) (solved : bool)
    (x : extractor) (existingData : record) :
  problemData_of env info solved x existingData !! "solved"
  = Some (solvedData_of env solved x existingData).
Proof.
  unfold problemData_of.
  rewrite !(lookup_insert_ne (M := gmap string)) by done.
  apply lookup_insert_eq.
Qed.

(** A stored [solved] object whose [value] is [true] is the one chosen. *)
Lemma solvedData_of_sticky (env : page) (solved : bool) (x : extractor)
    (existingData : record) (sv : jsval) :
  existingData !! "solved" = Some sv →
  prop "value" (Some sv) = Some (JBool true) →
  solvedData_of env solved x existingData = sv.
Proof.
  intros Hsv Hvalue. unfold solvedData_of. rewrite Hsv.
  destruct sv; simpl in Hvalue; try discriminate.
  unfold or_val. simpl. by rewrite Hvalue.
Qed.

(** One write keeps a solved record solved, with the same [solved] object. *)
Lemma storeProblemData_sticky (env : page) (info : problem_info) (solved : bool)
    (s : extractor * storage) (url : string) (prev : record) (sv : jsval) :
  problem_data (snd s) !! url = Some prev →
  prev !! "solved" = Some sv →
  prop "value" (Some sv) = Some (JBool true) →
  ∃ r : record,
    problem_data (snd (exec (storeProblemData env info solved) s)) !! url = Some r
    ∧ r !! "solved" = Some sv.
Proof.
  intros Hprev Hsv Hvalue. destruct s as [x st]. simpl in Hprev.
  destruct (storeProblemData_cases env info solved x st)
    as (_ & [[_ Hsame]|[_ Hnew]] & _).
  - exists prev. unfold exec. by rewrite Hsame.
  - unfold exec. rewrite Hnew.
    destruct (decide (pi_url info = url)) as [->|Hne].
    + rewrite lookup_insert_eq. eexists. split; [reflexivity|].
      rewrite problemData_of_solved. f_equal.
      rewrite Hprev. simpl. by apply solvedData_of_sticky.
    + rewrite lookup_insert_ne by done. by exists prev.
Qed.

(** C2: the persisted solved status is sticky. When the stored record of a
    problem has a [solved] object whose [value] is [true], then after any
    sequence of [storeProblemData] writes, each with any problem and any
    [solved] argument, the stored record of that problem still carries the
    very same [solved] object. *)
Theorem solved_is_sticky (calls : list (page * problem_info * bool))
    (s : extractor * storage) (url : string) (prev : record) (sv : jsval) :
  problem_data (snd s) !! url = Some prev →
  prev !! "solved" = Some sv →
  prop "value" (Some sv) = Some (JBool true) →
  ∃ r : record,
    problem_data (snd (store_all calls s)) !! url = Some r
    ∧ r !! "solved" = Some sv.
Proof.
  revert s prev.
  induction calls as [|[[env info] solved] calls IH]; intros s prev Hprev Hsv Hvalue.
  - exists prev. by split.
  - simpl.
    destruct (storeProblemData_sticky env info solved s url prev sv Hprev Hsv Hvalue)
      as (r & Hr & Hrsv).
    by apply (IH _ r).
Qed.

(** Two writes, not solved and solved, over a record solved at 4000. *)
Lemma solved_is_sticky_witness :
  ∃ r : record,
    problem_data (snd (store_all
      [(demo_page, demo_problem, false); (demo_page, demo_problem, true)]
      (constructor "/plus/dsa/two-sum", demo_solved_storage)))
      !! pi_url demo_problem = Some r
    ∧ r !! "solved" = Some (solved_object true 4000 2).
Proof.
  apply (solved_is_sticky _ _ _ demo_solved_record); reflexivity.
Defined.

End RecordProperties.

(** ** The attempt tracker *)

Section TrackerProperties.

Import TakeUforward.

Lemma onMessage_failed_submission (env : page) (sub : submission)
    (s : extractor * storage) :
  sub_success sub ≠ Some true →
  exec (onMessage env (SUBMISSION_RESPONSE sub)) s
  = (after_failed_submission (fst s), snd s).
Proof.
  intros Hfail. destruct s as [x st]. unfold onMessage.
  rewrite bool_decide_eq_false_2 by done.
  unfold after_failed_submission, handleThreeIncorrectRuns, latch.
  unfold_monad. simpl.
  destruct ((3 <=? incorrectRunCounter x + 1) && negb (hasAnalyzedMistakes x));
    reflexivity.
Qed.

Lemma onMessage_run_response (env : page) (success : option bool)
    (status : option string) (s : extractor * storage) :
  exec (onMessage env (RUN_RESPONSE success status)) s
  = (after_run_response success status (fst s), snd s).
Proof.
  destruct s as [x st]. unfold onMessage, after_run_response, accepted.
  unfold_monad. simpl.
  destruct (last_run_index (attempts x)) as [i|]; [|reflexivity].
  destruct (attempts x !! i) as [a|]; [|reflexivity].
  destruct (a_successful a); [reflexivity|].
  destruct (bool_decide (success = Some true) || bool_decide (status = Some "Accepted"));
    [reflexivity|].
  unfold handleThreeIncorrectRuns, latch. unfold_monad. simpl.
  destruct ((2 <=? incorrectRunCounter x + 1) && negb (hasAnalyzedMistakes x));
    reflexivity.
Qed.

Lemma onMessage_code_run (env : page) (usercode language : option string)
    (s : extractor * storage) :
  exec (onMessage env (CODE_RUN usercode language)) s
  = (after_code_run env usercode language (fst s), snd s).
Proof.
  destruct s as [x st]. unfold onMessage, after_code_run.
  unfold_monad. simpl.
  destruct (truthy_str (str_or (default "" usercode) (PUBLIC_CODE x))
            && (10 <? str_length (str_or (default "" usercode) (PUBLIC_CODE x))));
    reflexivity.
Qed.

(** A [CODE_SUBMIT] only caches the submitted code and counts the try. *)
Lemma onMessage_code_submit (env : page) (language usercode problem_id : option string)
    (s : extractor * storage) :
  ∃ tries slug lang code,
    fst (exec (onMessage env (CODE_SUBMIT language usercode problem_id)) s)
    = set_TRIES tries (set_code slug lang code (fst s)).
Proof.
  destruct s as [x [pd tcd top gpe gak bsr fs]]. unfold onMessage. unfold_monad. simpl.
  destruct fs as [|[] fs]; simpl.
  - eexists (TRIES x + 1), _, _, _. reflexivity.
  - eexists (TRIES x), _, _, _. reflexivity.
  - eexists (TRIES x + 1), _, _, _. reflexivity.
Qed.

Lemma onUrlCheck_same_path (env : page) (s : extractor * storage) :
  pathname env = currentPathname (fst s) →
  exec (onUrlCheck env) s = s.
Proof.
  intros Hp. destruct s as [x st]. unfold onUrlCheck. unfold_monad. simpl in *.
  rewrite bool_decide_eq_false_2; [reflexivity|]. intros H. by apply H.
Qed.

(** *** Failed attempts in a list *)

Lemma failed_runs_app (l1 l2 : list attempt) :
  failed_runs (l1 ++ l2) = failed_runs l1 + failed_runs l2.
Proof.
  unfold failed_runs. rewrite List.filter_app, length_app. lia.
Qed.

Lemma failed_runs_cons (a : attempt) (l : list attempt) :
  failed_runs (a :: l)
  = (if bool_decide (a_successful a = Some false) then 1 else 0) + failed_runs l.
Proof.
  unfold failed_runs. simpl.
  destruct (bool_decide (a_successful a = Some false)); simpl; lia.
Qed.

Lemma failed_runs_insert (l : list attempt) (i : nat) (a a' : attempt) :
  l !! i = Some a →
  failed_runs (<[i := a']> l)
  = failed_runs l
    - (if bool_decide (a_successful a = Some false) then 1 else 0)
    + (if bool_decide (a_successful a' = Some false) then 1 else 0).
Proof.
  revert i. induction l as [|b l IH]; intros i Hi; [done|].
  destruct i as [|i]; simpl in *.
  - injection Hi as ->. rewrite !failed_runs_cons. lia.
  - rewrite !failed_runs_cons, (IH i Hi). lia.
Qed.

(** *** The most recent run attempt *)

Lemma last_run_index_Some (l : list attempt) (i : nat) :
  last_run_index l = Some i →
  ∃ a, l !! i = Some a ∧ a_type a = "run"
       ∧ ∀ j b, (i < j)%nat → l !! j = Some b → a_type b ≠ "run".
Proof.
  revert i. induction l as [|a l IH]; intros i Hi; [done|].
  simpl in Hi. destruct (last_run_index l) as [k|] eqn:Hk.
  - injection Hi as <-. destruct (IH k eq_refl) as (b & Hb & Hrun & Hlater).
    exists b. split; [done|]. split; [done|].
    intros j c Hj Hc. destruct j as [|j]; [lia|].
    apply (Hlater j c); [lia|done].
  - destruct (String.eqb (a_type a) "run") eqn:Ha; [|done].
    injection Hi as <-. exists a. split; [done|].
    split; [by apply String.eqb_eq|].
    intros j c Hj Hc. destruct j as [|j]; [lia|]. simpl in Hc.
    intros Hrun.
    assert (Hnone : ∀ (l' : list attempt) n c',
              last_run_index l' = None → l' !! n = Some c' → a_type c' ≠ "run").
    { clear. induction l' as [|d l' IH']; intros n c' Hn Hc'; [done|].
      simpl in Hn. destruct (last_run_index l') eqn:Hl'; [done|].
      destruct (String.eqb (a_type d) "run") eqn:Hd; [done|].
      destruct n as [|n]; simpl in Hc'.
      - injection Hc' as <-. by apply String.eqb_neq.
      - by apply (IH' n c'). }
    by apply (Hnone l j c Hk Hc).
Qed.

Lemma last_run_index_snoc (l : list attempt) (a : attempt) :
  a_type a = "run" → last_run_index (l ++ [a]) = Some (length l).
Proof.
  intros Ha. induction l as [|b l IH]; simpl.
  - by rewrite Ha.
  - by rewrite IH.
Qed.

(** *** One result of a run *)

(** A [RUN_RESPONSE] either changes nothing, or resolves the most recent run
    attempt, which was pending, and counts it when it failed. *)
Lemma after_run_response_cases (success : option bool) (status : option string)
    (x : extractor) :
  let x' := after_run_response success status x in
  x' = x
  ∨ ∃ i a,
      last_run_index (attempts x) = Some i
      ∧ attempts x !! i = Some a
      ∧ a_successful a = None
      ∧ attempts x' =
          <[i := set_successful (Some (accepted success status)) a]> (attempts x)
      ∧ incorrectRunCounter x' =
          incorrectRunCounter x + (if accepted success status then 0 else 1)
      ∧ hasAnalyzedMistakes x' =
          hasAnalyzedMistakes x
          || (negb (accepted success status) && (2 <=? incorrectRunCounter x + 1))
      ∧ currentPathname x' = currentPathname x.
Proof.
  unfold after_run_response.
  destruct (last_run_index (attempts x)) as [i|] eqn:Hi; [|by left].
  destruct (attempts x !! i) as [a|] eqn:Ha; [|by left].
  destruct (a_successful a) eqn:Hs; [by left|].
  right. exists i, a. split; [done|]. split; [done|]. split; [done|].
  destruct (accepted success status); simpl.
  - repeat split; try done; try lia. by rewrite orb_false_r.
  - destruct (2 <=? incorrectRunCounter x + 1); simpl.
    + destruct (hasAnalyzedMistakes x) eqn:Hh; simpl; rewrite ?Hh;
        repeat split; done.
    + rewrite orb_false_r. repeat split; done.
Qed.

Lemma after_failed_submission_fields (x : extractor) :
  let x' := after_failed_submission x in
  incorrectRunCounter x' = incorrectRunCounter x + 1
  ∧ hasAnalyzedMistakes x' =
      hasAnalyzedMistakes x || (3 <=? incorrectRunCounter x + 1)
  ∧ attempts x' = attempts x
  ∧ currentPathname x' = currentPathname x.
Proof.
  unfold after_failed_submission. simpl.
  destruct (3 <=? incorrectRunCounter x + 1); simpl.
  - destruct (hasAnalyzedMistakes x) eqn:Hh; simpl; rewrite ?Hh;
      repeat split; done.
  - rewrite orb_false_r. repeat split; done.
Qed.

Lemma after_code_run_fields (env : page) (usercode language : option string)
    (x : extractor) :
  let x' := after_code_run env usercode language x in
  incorrectRunCounter x' = incorrectRunCounter x
  ∧ hasAnalyzedMistakes x' = hasAnalyzedMistakes x
  ∧ currentPathname x' = currentPathname x
  ∧ (attempts x' = attempts x
     ∨ ∃ a, attempts x' = attempts x ++ [a]
            ∧ a_successful a = None ∧ a_type a = "run").
Proof.
  unfold after_code_run. simpl.
  destruct (truthy_str (str_or (default "" usercode) (PUBLIC_CODE x))
            && (10 <? str_length (str_or (default "" usercode) (PUBLIC_CODE x))));
    simpl; repeat split; auto.
  right. eexists. repeat split; reflexivity.
Qed.

(** *** One event that keeps tracking *)

Lemma attempt_evolves_refl (a : attempt) : attempt_evolves a a.
Proof. split; [done|by left]. Qed.

Lemma attempt_evolves_trans (a a' a'' : attempt) :
  attempt_evolves a a' → attempt_evolves a' a'' → attempt_evolves a a''.
Proof.
  intros [H1 H2] [H3 H4]. split.
  - intros Hres. pose proof (H1 Hres) as ->. by apply H3.
  - destruct H2 as [->|(b & Hpend & ->)]; [done|].
    right. exists b. split; [done|]. by apply H3.
Qed.

(** What one event does to the tracked fields while the problem identity
    stays and no submission succeeds: the latch stays set once set, the
    counter moves with the failed attempts and the failed submissions, and
    attempts are only ever resolved from pending. *)
Lemma tracking_step (p : string) (e : event) (s : extractor * storage) :
  keeps_tracking p e →
  currentPathname (fst s) = p →
  let x := fst s in
  let x' := fst (exec (handle e) s) in
  currentPathname x' = p
  ∧ (hasAnalyzedMistakes x = true → hasAnalyzedMistakes x' = true)
  ∧ incorrectRunCounter x' - failed_runs (attempts x')
    = incorrectRunCounter x - failed_runs (attempts x)
      + (if failed_submission e then 1 else 0)
  ∧ incorrectRunCounter x ≤ incorrectRunCounter x'
  ∧ (∀ i a, attempts x !! i = Some a →
       ∃ a', attempts x' !! i = Some a' ∧ attempt_evolves a a').
Proof.
  intros Hkeep Hpath x x'. subst x x'.
  assert (Hsame : ∀ i a, attempts (fst s) !! i = Some a →
            ∃ a', attempts (fst s) !! i = Some a' ∧ attempt_evolves a a').
  { intros i a Ha. exists a. split; [done|apply attempt_evolves_refl]. }
  destruct e as [env [language usercode problem_id|usercode language
                      |success status|sub]|env]; simpl in Hkeep; unfold handle.
  - destruct (onMessage_code_submit env language usercode problem_id s)
      as (tries & slug & lang & code & ->). simpl.
    repeat split; auto; lia.
  - rewrite onMessage_code_run. simpl.
    destruct (after_code_run_fields env usercode language (fst s))
      as (Hc & Hl & Hp & [Ha|(a & Ha & Hpend & _)]).
    + rewrite Hc, Hl, Hp, Ha. repeat split; auto; lia.
    + rewrite Hc, Hl, Hp, Ha. repeat split; auto; try lia.
      * rewrite failed_runs_app, failed_runs_cons, Hpend.
        rewrite bool_decide_eq_false_2 by done. unfold failed_runs at 2. simpl. lia.
      * intros i b Hb. exists b. split; [|apply attempt_evolves_refl].
        by apply lookup_app_l_Some.
  - rewrite onMessage_run_response. simpl.
    destruct (after_run_response_cases success status (fst s))
      as [->|(i & a & _ & Ha & Hpend & Hatt & Hc & Hl & Hp)].
    + repeat split; auto; lia.
    + rewrite Hatt, Hc, Hl, Hp. repeat split; auto.
      * intros ->. reflexivity.
      * rewrite (failed_runs_insert _ _ _ _ Ha), Hpend. simpl.
        destruct (accepted success status); simpl; lia.
      * destruct (accepted success status); lia.
      * intros j b Hb. destruct (decide (j = i)) as [->|Hne].
        -- rewrite Ha in Hb. injection Hb as <-.
           exists (set_successful (Some (accepted success status)) a). split.
           ++ apply list_lookup_insert_eq. by eapply lookup_lt_Some.
           ++ split; [by rewrite Hpend|]. right. by eexists.
        -- exists b. split; [|apply attempt_evolves_refl].
           by rewrite list_lookup_insert_ne.
  - rewrite (onMessage_failed_submission env sub s Hkeep). simpl.
    destruct (after_failed_submission_fields (fst s)) as (Hc & Hl & Ha & Hp).
    rewrite Hc, Hl, Ha, Hp. rewrite bool_decide_eq_false_2 by done. simpl.
    repeat split; auto; try lia. intros ->. reflexivity.
  - rewrite onUrlCheck_same_path by congruence. simpl.
    repeat split; auto; lia.
Qed.

(** The same over a sequence of events. *)
Lemma tracking_run (p : string) (evs : list event) :
  ∀ s : extractor * storage,
    Forall (keeps_tracking p) evs →
    currentPathname (fst s) = p →
    let x := fst s in
    let x' := fst (run evs s) in
    currentPathname x' = p
    ∧ (hasAnalyzedMistakes x = true → hasAnalyzedMistakes x' = true)
    ∧ incorrectRunCounter x' - failed_runs (attempts x')
      = incorrectRunCounter x - failed_runs (attempts x) + failed_submits evs
    ∧ incorrectRunCounter x ≤ incorrectRunCounter x'
    ∧ (∀ i a, attempts x !! i = Some a →
         ∃ a', attempts x' !! i = Some a' ∧ attempt_evolves a a')
    ∧ (latchings evs s ≤ 1)%nat
    ∧ (hasAnalyzedMistakes x = true → latchings evs s = 0%nat).
Proof.
  induction evs as [|e evs IH]; intros s Hall Hpath; simpl.
  - repeat split; auto; try lia.
    + unfold failed_submits. simpl. lia.
    + intros i a Ha. exists a. split; [done|apply attempt_evolves_refl].
  - inversion Hall as [|? ? He Hevs]; subst.
    destruct (tracking_step _ e s He eq_refl) as (S1 & S2 & S3 & S4 & S5).
    destruct (IH (exec (handle e) s) Hevs S1) as (I1 & I2 & I3 & I4 & I5 & I6 & I7).
    split; [done|]. split; [auto|]. split.
    { rewrite I3, S3. unfold failed_submits. simpl.
      destruct (failed_submission e); simpl; lia. }
    split; [lia|]. split.
    { intros i a Ha. destruct (S5 i a Ha) as (a1 & Ha1 & Hev1).
      destruct (I5 i a1 Ha1) as (a2 & Ha2 & Hev2).
      exists a2. split; [done|]. by eapply attempt_evolves_trans. }
    split.
    + destruct (hasAnalyzedMistakes (fst s)) eqn:Hl; simpl.
      * rewrite (I7 (S2 eq_refl)). lia.
      * destruct (hasAnalyzedMistakes (fst (exec (handle e) s))) eqn:Hl'; simpl.
        -- rewrite (I7 eq_refl). lia.
        -- lia.
    + intros Hl. rewrite Hl. simpl. apply I7, S2, Hl.
Qed.


(** A run of more than ten characters of code appends a pending attempt. *)
Lemma after_code_run_recorded (env : page) (code : string)
    (language : option string) (x : extractor) :
  10 < str_length code →
  after_code_run env (Some code) language x
  = set_attempts
      (attempts x
       ++ [Attempt code (str_or (default "" language) (SELECTED_LANGUAGE x))
                   (iso_now env) "run" (runCounter x + 1) None])
      (set_runCounter (runCounter x + 1) x).
Proof.
  intros Hlen.
  assert (Hcode : truthy_str code = true).
  { destruct code; [unfold str_length in Hlen; simpl in Hlen; lia|reflexivity]. }
  unfold after_code_run. cbn [default PUBLIC_CODE SELECTED_LANGUAGE set_runCounter
                              runCounter attempts].
  assert (Hor : ∀ d, str_or code d = code).
  { intros d. unfold str_or. by rewrite Hcode. }
  rewrite Hor, Hcode. apply Z.ltb_lt in Hlen. rewrite Hlen. reflexivity.
Qed.

(** A run of more than ten characters of code whose result is a failure
    resolves the attempt it appended and counts one failure. *)
Lemma failed_run_counts (env : page) (code : string) (language status : option string)
    (s : extractor * storage) :
  10 < str_length code →
  status ≠ Some "Accepted" →
  let x' := fst (run (failed_run env code language status) s) in
  incorrectRunCounter x' = incorrectRunCounter (fst s) + 1
  ∧ hasAnalyzedMistakes x' =
      hasAnalyzedMistakes (fst s) || (2 <=? incorrectRunCounter (fst s) + 1).
Proof.
  intros Hlen Hstatus. unfold failed_run. cbn [run handle].
  rewrite onMessage_code_run, onMessage_run_response. cbn [fst snd].
  rewrite (after_code_run_recorded env code language (fst s) Hlen).
  set (a := Attempt code _ _ _ _ _).
  set (x1 := set_attempts _ _).
  assert (Hacc : accepted (Some false) status = false).
  { unfold accepted. simpl. by rewrite bool_decide_eq_false_2. }
  assert (Hlast : last_run_index (attempts x1) = Some (length (attempts (fst s)))).
  { subst x1. simpl. by apply last_run_index_snoc. }
  assert (Hlook : attempts x1 !! length (attempts (fst s)) = Some a).
  { subst x1. simpl. by apply list_lookup_middle. }
  destruct (after_run_response_cases (Some false) status x1)
    as [Hsame|(i & b & Hi & Hb & Hpend & _ & Hc & Hl & _)].
  - exfalso. revert Hsame. unfold after_run_response.
    rewrite Hlast, Hlook, Hacc. simpl.
    intros Hsame. apply (f_equal incorrectRunCounter) in Hsame. revert Hsame.
    destruct ((2 <=? incorrectRunCounter (fst s) + 1)
              && negb (hasAnalyzedMistakes (fst s))); simpl; lia.
  - rewrite Hacc in Hc, Hl. simpl in Hc, Hl. by split.
Qed.

(** *** The most recent run attempt, characterised *)

Lemma last_run_index_None (l : list attempt) :
  last_run_index l = None → ∀ i a, l !! i = Some a → a_type a ≠ "run".
Proof.
  induction l as [|d l IH]; intros Hn i a Ha; [done|].
  simpl in Hn. destruct (last_run_index l) eqn:Hl; [done|].
  destruct (String.eqb (a_type d) "run") eqn:Hd; [done|].
  destruct i as [|i]; simpl in Ha.
  - injection Ha as <-. by apply String.eqb_neq.
  - by apply (IH eq_refl i a).
Qed.

Lemma most_recent_run_index (l : list attempt) (i : nat) (a : attempt) :
  most_recent_run l i a → last_run_index l = Some i.
Proof.
  intros (Ha & Hrun & Hlater).
  destruct (last_run_index l) as [k|] eqn:Hk.
  - destruct (last_run_index_Some l k Hk) as (b & Hb & Hrunb & Hlaterb).
    destruct (lt_eq_lt_dec i k) as [[Hlt| ->]|Hgt]; [|done|].
    + by destruct (Hlater k b Hlt Hb).
    + by destruct (Hlaterb i a Hgt Ha).
  - by destruct (last_run_index_None l Hk i a Ha).
Qed.

(** A [RUN_RESPONSE] when there is a most recent run attempt: if it is
    pending it is resolved, and counted when it failed; if it is resolved
    nothing changes. *)
Lemma run_response_resolves (success : option bool) (status : option string)
    (x : extractor) (i : nat) (a : attempt) :
  most_recent_run (attempts x) i a →
  let x' := after_run_response success status x in
  (a_successful a = None →
     attempts x' =
       <[i := set_successful (Some (accepted success status)) a]> (attempts x)
     ∧ incorrectRunCounter x' =
         incorrectRunCounter x + (if accepted success status then 0 else 1))
  ∧ (a_successful a ≠ None → x' = x).
Proof.
  intros Hmost. pose proof (most_recent_run_index _ _ _ Hmost) as Hi.
  destruct Hmost as (Ha & _). unfold after_run_response. rewrite Hi, Ha.
  destruct (a_successful a) as [b|]; (split; [|done]); [done|].
  intros _. destruct (accepted success status); cbn zeta.
  - split; [reflexivity|]. cbn. lia.
  - destruct ((2 <=? _) && _); split; reflexivity.
Qed.

(** A [RUN_RESPONSE] when no run attempt has been recorded. *)
Lemma run_response_without_run (success : option bool) (status : option string)
    (x : extractor) :
  (∀ i a, attempts x !! i = Some a → a_type a ≠ "run") →
  after_run_response success status x = x.
Proof.
  intros Hnone. unfold after_run_response.
  destruct (last_run_index (attempts x)) as [i|] eqn:Hi; [|done].
  destruct (last_run_index_Some _ _ Hi) as (a & Ha & Hrun & _).
  by destruct (Hnone i a Ha).
Qed.

(** C7, as amended: the run-failure counter counts the run attempts that go
    from pending to failed, once each, and the failed submissions. After any
    sequence of events on one problem without a successful submission the
    counter has grown by the number of attempts that became failed plus the
    number of failed submissions, and every attempt present at the start is
    either untouched or resolved from pending. A run result applies to the
    most recent run attempt only, and only while that attempt is pending:
    then the attempt is marked with the result and the counter grows by one
    exactly when the result is a failure; when the most recent run attempt is
    already resolved, or there is none, the result changes nothing. A failed
    submission adds one to the same counter and leaves every attempt alone;
    a run leaves the counter alone and at most appends one pending
    attempt. *)
Theorem run_failures_counted_once
    (p : string) (evs : list event) (s : extractor * storage) :
  currentPathname (fst s) = p →
  Forall (keeps_tracking p) evs →
  let x := fst s in
  let x' := fst (run evs s) in
  incorrectRunCounter x'
  = incorrectRunCounter x
    + (failed_runs (attempts x') - failed_runs (attempts x))
    + failed_submits evs
  ∧ (∀ i a, attempts x !! i = Some a →
       ∃ a', attempts x' !! i = Some a' ∧ attempt_evolves a a')
  ∧ (∀ (env : page) (success : option bool) (status : option string)
       (s1 : extractor * storage),
       let y := fst s1 in
       let y' := fst (exec (onMessage env (RUN_RESPONSE success status)) s1) in
       (∀ i a, most_recent_run (attempts y) i a →
          (a_successful a = None →
             attempts y' =
               <[i := set_successful (Some (accepted success status)) a]> (attempts y)
             ∧ incorrectRunCounter y' =
                 incorrectRunCounter y + (if accepted success status then 0 else 1))
          ∧ (a_successful a ≠ None → y' = y))
       ∧ ((∀ i a, attempts y !! i = Some a → a_type a ≠ "run") → y' = y))
  ∧ (∀ (env : page) (sub : submission) (s1 : extractor * storage),
       sub_success sub ≠ Some true →
       let y := fst s1 in
       let y' := fst (exec (onMessage env (SUBMISSION_RESPONSE sub)) s1) in
       incorrectRunCounter y' = incorrectRunCounter y + 1
       ∧ attempts y' = attempts y)
  ∧ (∀ (env : page) (usercode language : option string) (s1 : extractor * storage),
       let y := fst s1 in
       let y' := fst (exec (onMessage env (CODE_RUN usercode language)) s1) in
       incorrectRunCounter y' = incorrectRunCounter y
       ∧ (attempts y' = attempts y
          ∨ ∃ a, attempts y' = attempts y ++ [a]
                 ∧ a_successful a = None ∧ a_type a = "run")).
Proof.
  intros Hpath Hall x x'.
  destruct (tracking_run p evs s Hall Hpath) as (_ & _ & H3 & _ & H5 & _).
  split; [subst x x'; lia|]. split; [exact H5|]. split; [|split].
  - intros env success status s1 y y'. subst y y'.
    rewrite onMessage_run_response. cbn [fst]. split.
    + intros i a Hmost. by apply run_response_resolves.
    + apply run_response_without_run.
  - intros env sub s1 Hfail y y'. subst y y'.
    rewrite (onMessage_failed_submission env sub s1 Hfail). cbn [fst].
    destruct (after_failed_submission_fields (fst s1)) as (Hc & _ & Ha & _).
    by split.
  - intros env usercode language s1 y y'. subst y y'.
    rewrite onMessage_code_run. cbn [fst].
    destruct (after_code_run_fields env usercode language (fst s1))
      as (Hc & _ & _ & Ha).
    by split.
Qed.

(** One failed run followed by two failed submissions on a fresh script:
    the counter stands at three, with one failed attempt. *)
Lemma run_failures_counted_once_witness :
  incorrectRunCounter (fst (run demo_run_then_two_submits demo_fresh)) = 3
  ∧ failed_runs (attempts (fst (run demo_run_then_two_submits demo_fresh))) = 1.
Proof.
  destruct (run_failures_counted_once "/plus/dsa/two-sum"
              demo_run_then_two_submits demo_fresh) as [H _].
  - reflexivity.
  - repeat constructor; simpl; discriminate.
  - split; [rewrite H|]; reflexivity.
Defined.

(** C7, as stated, fails on a failed submission: the counter grows although
    no run attempt is marked failed (there is none). *)
Lemma failed_submission_moves_run_counter : ¬ run_failures_as_stated.
Proof.
  intros H.
  destruct (H demo_page (SUBMISSION_RESPONSE demo_rejected) demo_fresh) as [Hmark _].
  destruct Hmark as (i & a & Ha & _); [vm_compute; reflexivity|].
  by destruct i.
Qed.

(** C3, as amended: submission failures are counted in the run-failure
    counter itself. After any sequence of events on one problem without a
    successful submission, [incorrectRunCounter] has grown by the failed runs
    plus the failed submissions; a further failed submit result adds one to
    that same counter, leaves the attempts alone, and latches analysis when the
    counter has reached 3 and the latch is not yet set (a failed run result
    latches at 2). *)
Theorem failed_submits_share_the_run_counter
    (p : string) (evs : list event) (s : extractor * storage)
    (env : page) (sub : submission) :
  currentPathname (fst s) = p →
  Forall (keeps_tracking p) evs →
  sub_success sub ≠ Some true →
  let x := fst (run evs s) in
  let x' := fst (exec (onMessage env (SUBMISSION_RESPONSE sub)) (run evs s)) in
  incorrectRunCounter x
  = incorrectRunCounter (fst s)
    + (failed_runs (attempts x) - failed_runs (attempts (fst s)))
    + failed_submits evs
  ∧ incorrectRunCounter x' = incorrectRunCounter x + 1
  ∧ hasAnalyzedMistakes x' =
      hasAnalyzedMistakes x || (3 <=? incorrectRunCounter x + 1)
  ∧ attempts x' = attempts x
  ∧ (∀ (env' : page) (code : string) (language status : option string),
       10 < str_length code → status ≠ Some "Accepted" →
       let x'' := fst (run (failed_run env' code language status) (run evs s)) in
       incorrectRunCounter x'' = incorrectRunCounter x + 1
       ∧ hasAnalyzedMistakes x'' =
           hasAnalyzedMistakes x || (2 <=? incorrectRunCounter x + 1)).
Proof.
  intros Hpath Hall Hfail x x'.
  destruct (tracking_run p evs s Hall Hpath) as (_ & _ & H3 & _).
  split; [subst x; lia|].
  subst x'. rewrite (onMessage_failed_submission env sub _ Hfail). simpl.
  destruct (after_failed_submission_fields x) as (Hc & Hl & Ha & _).
  split; [exact Hc|]. split; [exact Hl|]. split; [exact Ha|].
  intros env' code language status Hlen Hstatus.
  apply (failed_run_counts env' code language status (run evs s) Hlen Hstatus).
Qed.

(** A further failed submission after one failed run and two failed
    submissions. *)
Lemma failed_submits_share_the_run_counter_witness :
  let s := demo_fresh in
  let evs := demo_run_then_two_submits in
  let x := fst (run evs s) in
  let x' := fst (exec (onMessage demo_page (SUBMISSION_RESPONSE demo_rejected))
                      (run evs s)) in
  incorrectRunCounter x
  = incorrectRunCounter (fst s)
    + (failed_runs (attempts x) - failed_runs (attempts (fst s)))
    + failed_submits evs
  ∧ incorrectRunCounter x' = incorrectRunCounter x + 1
  ∧ hasAnalyzedMistakes x' =
      hasAnalyzedMistakes x || (3 <=? incorrectRunCounter x + 1)
  ∧ attempts x' = attempts x
  ∧ (∀ (env' : page) (code : string) (language status : option string),
       10 < str_length code → status ≠ Some "Accepted" →
       let x'' := fst (run (failed_run env' code language status) (run evs s)) in
       incorrectRunCounter x'' = incorrectRunCounter x + 1
       ∧ hasAnalyzedMistakes x'' =
           hasAnalyzedMistakes x || (2 <=? incorrectRunCounter x + 1)).
Proof.
  apply (failed_submits_share_the_run_counter "/plus/dsa/two-sum"
           demo_run_then_two_submits demo_fresh demo_page demo_rejected).
  - reflexivity.
  - repeat constructor; simpl; discriminate.
  - simpl. discriminate.
Defined.

(** C3, as stated, fails on its own example: after one failed run and two
    failed submissions the analysis is latched, with one failed run and two
    failed submits. *)
Lemma failed_submits_reach_the_run_threshold : ¬ submit_failures_counted_apart.
Proof.
  intros [_ H].
  specialize (H "/plus/dsa/two-sum" demo_run_then_two_submits
                ProblemTimer.demo_storage).
  assert (Hall : Forall (keeps_tracking "/plus/dsa/two-sum") demo_run_then_two_submits).
  { repeat constructor; simpl; discriminate. }
  specialize (H Hall). vm_compute in H.
  destruct (H eq_refl) as [Hruns|Hsubmits].
  - by apply Hruns.
  - by apply Hsubmits.
Qed.

End TrackerProperties.

(** ** The analysis client *)

Section Stateless.

Context {X : Type}.

Lemma stateless_ret {A} (a : A) : stateless (ret (X := X) a).
Proof. by intros s. Qed.

Lemma stateless_throw {A} (msg : string) : stateless (throw (X := X) (A := A) msg).
Proof. by intros s. Qed.

Lemma stateless_lift {A} (o : outcome A) : stateless (lift (X := X) o).
Proof. by intros s. Qed.

Lemma stateless_bind {A B} (m : M X A) (k : A → M X B) :
  stateless m → (∀ a, stateless (k a)) → stateless (m ≫= k).
Proof.
  intros Hm Hk s. unfold mbind, M_bind, bind.
  specialize (Hm s). destruct (m s) as [[a|msg] s']; simpl in *; subst; [apply Hk|done].
Qed.

Lemma stateless_if {A} (b : bool) (m1 m2 : M X A) :
  stateless m1 → stateless m2 → stateless (if b then m1 else m2).
Proof. by destruct b. Qed.

End Stateless.

Section ClientProperties.

Import GeminiAPI.

Variable ops : string_ops.
Variable network : string → string → outcome response.

(** [initialize()] when the storage call is answered: the client keeps the
    stored key when it is not empty. *)
Lemma initialize_this (g : gemini) (st : storage) :
  next_call_answers st = true →
  ∃ k, initialize (g, st) = (Ok (key_set k), (Gemini k (requests g), after_read st))
       ∧ key_set k = key_set (gemini_api_key st).
Proof.
  destruct st as [pd tcd top gpe gak bsr fs].
  unfold next_call_answers, after_read, initialize, sync_get_gemini_api_key,
    storage_call. unfold mbind, M_bind, bind, modify_this, ret.
  cbn [fst snd faults]. intros Hans.
  assert (Hk : ∀ o : option string,
            key_set match o with
                    | Some k => if truthy_str k then Some k else None
                    | None => None
                    end = key_set o).
  { intros [k|]; [|reflexivity]. simpl. destruct (truthy_str k) eqn:E; simpl; done. }
  destruct fs as [|[] fs]; [|discriminate|]; cbn [fst snd set_faults gemini_api_key];
    eexists; (split; [reflexivity|apply Hk]).
Qed.

(** [initialize()] when the storage call fails: the failure is raised and
    the client stays as it is. *)
Lemma initialize_fails (g : gemini) (st : storage) :
  next_call_answers st = false →
  initialize (g, st) = (Throw "storage error", (g, after_read st)).
Proof.
  destruct st as [pd tcd top gpe gak bsr fs].
  unfold next_call_answers, after_read, initialize, sync_get_gemini_api_key,
    storage_call. unfold mbind, M_bind, bind.
  cbn [fst snd faults]. intros Hans.
  destruct fs as [|[] fs]; [discriminate| |discriminate]. reflexivity.
Qed.

(** Reading the response changes neither the client nor the storage. *)
Lemma read_response_stateless (resp : response) :
  stateless (read_response ops resp).
Proof.
  unfold read_response.
  repeat first
    [ apply stateless_if
    | apply stateless_bind; [|intros ?]
    | apply stateless_lift
    | apply stateless_ret
    | apply stateless_throw ].
Qed.

(** The [try] block sends at most one request and leaves the storage alone,
    whether it returns or raises. *)
Lemma request_analysis_effects (attempts : list attempt)
    (problemInfo : option problem_info) (g : gemini) (st : storage) :
  ∃ o g',
    request_analysis ops network attempts problemInfo (g, st) = (o, (g', st))
    ∧ apiKey g' = apiKey g
    ∧ (requests g' = requests g
       ∨ ∃ url prompt, requests g' = requests g ++ [(url, prompt)]).
Proof.
  unfold request_analysis, fetch. unfold_monad. simpl.
  destruct (buildAnalysisPrompt attempts problemInfo) as [prompt|msg]; simpl.
  2: { do 2 eexists. split; [reflexivity|]. split; [done|by left]. }
  destruct (network _ prompt) as [resp|msg]; simpl.
  - pose proof (read_response_stateless resp
      (Gemini (apiKey g)
         (requests g ++ [(baseURL +:+ "?key=" +:+ default "null" (apiKey g), prompt)]),
       st)) as Hs.
    destruct (read_response ops resp _) as [o s']. simpl in Hs. subst s'.
    do 2 eexists. split; [reflexivity|]. split; [done|]. right. by do 2 eexists.
  - do 2 eexists. split; [reflexivity|]. split; [done|]. right. by do 2 eexists.
Qed.

(** Without a key at hand the client answers that it is not configured. *)
Lemma analyzeMistakes_unconfigured (attempts : option (list attempt))
    (problemInfo : option problem_info) (g : gemini) (st : storage) :
  key_available g st = false →
  next_call_answers st = true →
  ∃ g', analyzeMistakes ops network attempts problemInfo (g, st)
        = (Ok (AnalysisError "Gemini API key not configured"), (g', after_read st))
        ∧ requests g' = requests g.
Proof.
  unfold key_available. intros Hkey Hans. apply orb_false_iff in Hkey as [Hg Hst].
  unfold analyzeMistakes. unfold mbind, M_bind, bind, get_this. cbn [fst snd].
  rewrite Hg. cbn [negb].
  destruct (initialize_this g st Hans) as (k & -> & Hk). rewrite Hk, Hst. simpl.
  by eexists.
Qed.

(** With a key at hand the client goes on, holding a key, to look at the
    attempts. *)
Lemma analyzeMistakes_keyed (attempts : option (list attempt))
    (problemInfo : option problem_info) (g : gemini) (st : storage) :
  key_available g st = true →
  key_set (apiKey g) || next_call_answers st = true →
  ∃ g0, requests g0 = requests g
    ∧ analyzeMistakes ops network attempts problemInfo (g, st)
      = match attempts with
        | None | Some [] =>
            (Ok (AnalysisError "No attempts to analyze"),
             (g0, if key_set (apiKey g) then st else after_read st))
        | Some (a :: rest) =>
            try_catch (request_analysis ops network (a :: rest) problemInfo)
                      (λ message, ret (AnalysisError message))
                      (g0, if key_set (apiKey g) then st else after_read st)
        end.
Proof.
  unfold key_available. intros Hkey Hans.
  unfold analyzeMistakes. unfold mbind, M_bind, bind, get_this. cbn [fst snd].
  destruct (key_set (apiKey g)) eqn:Hg; cbn [negb orb] in *.
  - exists g. split; [done|]. destruct attempts as [[|a rest]|]; reflexivity.
  - destruct (initialize_this g st Hans) as (k & -> & Hk). rewrite Hk, Hkey. simpl.
    exists (Gemini k (requests g)). split; [done|].
    destruct attempts as [[|a rest]|]; reflexivity.
Qed.

(** When the client holds no key and the storage call of [initialize()]
    fails, [analyzeMistakes] raises that failure: the call is awaited before
    the [try] block. *)
Lemma analyzeMistakes_raises (attempts : option (list attempt))
    (problemInfo : option problem_info) (g : gemini) (st : storage) :
  key_set (apiKey g) || next_call_answers st = false →
  analyzeMistakes ops network attempts problemInfo (g, st)
  = (Throw "storage error", (g, after_read st)).
Proof.
  intros Hno. apply orb_false_iff in Hno as [Hg Hans].
  unfold analyzeMistakes. unfold mbind, M_bind, bind, get_this. cbn [fst snd].
  rewrite Hg. cbn [negb]. by rewrite (initialize_fails g st Hans).
Qed.

(** The [try] block wrapped in its [catch] always returns. *)
Lemma request_analysis_caught (attempts : list attempt)
    (problemInfo : option problem_info) (g : gemini) (st : storage) :
  ∃ res g',
    try_catch (request_analysis ops network attempts problemInfo)
              (λ message, ret (AnalysisError message)) (g, st)
    = (Ok res, (g', st))
    ∧ (requests g' = requests g
       ∨ ∃ url prompt, requests g' = requests g ++ [(url, prompt)])
    ∧ (∀ msg, request_analysis ops network attempts problemInfo (g, st)
              = (Throw msg, (g', st)) → res = AnalysisError msg).
Proof.
  unfold try_catch.
  destruct (request_analysis_effects attempts problemInfo g st)
    as (o & g' & -> & _ & Hreq).
  destruct o as [res|msg]; simpl.
  - exists res, g'. split; [done|]. split; [done|]. intros msg [=].
  - exists (AnalysisError msg), g'. split; [done|]. split; [done|].
    by intros msg' [= ->].
Qed.

(** What the [try] block raises when the request cannot be completed. *)
Lemma request_analysis_failures (attempts : list attempt)
    (problemInfo : option problem_info) (g : gemini) (st : storage)
    (prompt : string) :
  buildAnalysisPrompt attempts problemInfo = Ok prompt →
  (∀ msg, (∀ url, network url prompt = Throw msg) →
     fst (request_analysis ops network attempts problemInfo (g, st)) = Throw msg)
  ∧ (∀ resp errorText,
       (∀ url, network url prompt = Ok resp) →
       ok resp = false → text resp = Ok errorText →
       fst (request_analysis ops network attempts problemInfo (g, st))
       = Throw ("Gemini API responded with " +:+ pretty (status resp)
                +:+ ": " +:+ errorText))
  ∧ (∀ resp data,
       (∀ url, network url prompt = Ok resp) →
       ok resp = true → json resp = Ok data → data ≠ JNull →
       truthy_opt (prop "candidates" (Some data)) = false →
       fst (request_analysis ops network attempts problemInfo (g, st))
       = Throw "Invalid response format from Gemini API").
Proof.
  intros Hprompt.
  unfold request_analysis, fetch. unfold mbind, M_bind, bind, lift, get_this,
    modify_this. simpl. rewrite Hprompt. simpl.
  split; [|split].
  - intros msg Hnet. by rewrite Hnet.
  - intros resp errorText Hnet Hok Htext. rewrite Hnet. simpl.
    unfold read_response. rewrite Hok. simpl.
    unfold mbind, M_bind, bind, lift, throw. by rewrite Htext.
  - intros resp data Hnet Hok Hjson Hnull Hcand. rewrite Hnet. simpl.
    unfold read_response. rewrite Hok. simpl.
    unfold mbind, M_bind, bind, lift, throw, ret. rewrite Hjson. simpl.
    destruct data as [| | | | |m]; try done; cbn [prop] in Hcand;
      cbn [member truthy_opt first]; rewrite ?Hcand; reflexivity.
Qed.

(** [analyzeMistakes] returns whenever it holds a key or the storage call
    of [initialize()] is answered; it sends at most one request. *)
Lemma analyzeMistakes_returns (attempts : option (list attempt))
    (problemInfo : option problem_info) (g : gemini) (st : storage) :
  key_set (apiKey g) || next_call_answers st = true →
  ∃ res g',
    analyzeMistakes ops network attempts problemInfo (g, st)
    = (Ok res, (g', if key_set (apiKey g) then st else after_read st))
    ∧ (requests g' = requests g
       ∨ ∃ url prompt, requests g' = requests g ++ [(url, prompt)]).
Proof.
  intros Hans.
  destruct (key_available g st) eqn:Hkey.
  - destruct (analyzeMistakes_keyed attempts problemInfo g st Hkey Hans)
      as (g0 & Hreq0 & ->).
    destruct attempts as [[|a rest]|].
    + do 2 eexists. split; [reflexivity|]. by left.
    + destruct (request_analysis_caught (a :: rest) problemInfo g0
                  (if key_set (apiKey g) then st else after_read st))
        as (res & g' & -> & Hreq & _).
      exists res, g'. split; [done|]. by rewrite <- Hreq0.
    + do 2 eexists. split; [reflexivity|]. by left.
  - assert (Hg : key_set (apiKey g) = false).
    { unfold key_available in Hkey. by apply orb_false_iff in Hkey as [? _]. }
    rewrite Hg in Hans |- *. cbn [orb] in Hans.
    destruct (analyzeMistakes_unconfigured attempts problemInfo g st Hkey Hans)
      as (g' & -> & Hreq).
    do 2 eexists. split; [reflexivity|]. by left.
Qed.

(** C10, as amended: [analyzeMistakes] resolves to a result with a [success]
    flag whenever the client already holds a key or the storage call made by
    [initialize()] is answered; the stored items are left alone. When no API
    key is at hand it then resolves to
    [{success: false, error: "Gemini API key not configured"}], whatever the
    attempts, and sends nothing; when a key is at hand and [attempts] is
    [null] or empty it resolves to
    [{success: false, error: "No attempts to analyze"}] and sends nothing;
    otherwise it sends at most one request, and a rejected [fetch], a non-ok
    status and a response without candidates are each returned as
    [{success: false, error}]. Only when the client holds no key and the
    storage call of [initialize()] fails does [analyzeMistakes] raise: that
    call is awaited before the [try] block, and its failure is passed on
    with nothing sent. *)
Theorem analyzeMistakes_never_throws
    (attempts : option (list attempt)) (problemInfo : option problem_info)
    (g : gemini) (st : storage) :
  let r := analyzeMistakes ops network attempts problemInfo (g, st) in
  let st' := if key_set (apiKey g) then st else after_read st in
  (key_set (apiKey g) || next_call_answers st = true →
   (∃ res g', r = (Ok res, (g', st'))
      ∧ (requests g' = requests g
         ∨ ∃ url prompt, requests g' = requests g ++ [(url, prompt)]))
   ∧ (key_available g st = false →
      fst r = Ok (AnalysisError "Gemini API key not configured")
      ∧ requests (fst (snd r)) = requests g)
   ∧ (key_available g st = true → attempts = None ∨ attempts = Some [] →
      fst r = Ok (AnalysisError "No attempts to analyze")
      ∧ requests (fst (snd r)) = requests g)
   ∧ (∀ a rest prompt,
        key_available g st = true → attempts = Some (a :: rest) →
        buildAnalysisPrompt (a :: rest) problemInfo = Ok prompt →
        (∀ msg, (∀ url, network url prompt = Throw msg) →
           fst r = Ok (AnalysisError msg))
        ∧ (∀ resp errorText,
             (∀ url, network url prompt = Ok resp) →
             ok resp = false → text resp = Ok errorText →
             fst r = Ok (AnalysisError
                           ("Gemini API responded with " +:+ pretty (status resp)
                            +:+ ": " +:+ errorText)))
        ∧ (∀ resp data,
             (∀ url, network url prompt = Ok resp) →
             ok resp = true → json resp = Ok data → data ≠ JNull →
             truthy_opt (prop "candidates" (Some data)) = false →
             fst r = Ok (AnalysisError "Invalid response format from Gemini API"))))
  ∧ (key_set (apiKey g) || next_call_answers st = false →
     r = (Throw "storage error", (g, st'))).
Proof.
  intros r st'. subst r st'.
  split; [|intros Hno; rewrite (analyzeMistakes_raises _ _ _ _ Hno);
           apply orb_false_iff in Hno as [-> _]; reflexivity].
  intros Hans.
  split; [by apply analyzeMistakes_returns|].
  destruct (key_available g st) eqn:Hkey.
  - destruct (analyzeMistakes_keyed attempts problemInfo g st Hkey Hans)
      as (g0 & Hreq0 & Heq).
    rewrite Heq. clear Heq.
    set (st' := if key_set (apiKey g) then st else after_read st).
    split; [done|split].
    + intros _ [->| ->]; by split.
    + intros a rest prompt _ -> Hprompt.
      destruct (request_analysis_failures (a :: rest) problemInfo g0 st' prompt Hprompt)
        as (F1 & F2 & F3).
      destruct (request_analysis_caught (a :: rest) problemInfo g0 st')
        as (res & g' & Hcatch & _ & Hres).
      assert (Hthrow : ∀ msg,
        fst (request_analysis ops network (a :: rest) problemInfo (g0, st')) = Throw msg →
        fst (try_catch (request_analysis ops network (a :: rest) problemInfo)
               (λ message, ret (AnalysisError message)) (g0, st'))
        = Ok (AnalysisError msg)).
      { intros msg Hmsg. unfold try_catch.
        destruct (request_analysis ops network (a :: rest) problemInfo (g0, st'))
          as [o s']. simpl in Hmsg. subst o. reflexivity. }
      split; [|split].
      * intros msg Hnet. apply Hthrow, F1, Hnet.
      * intros resp errorText Hnet Hok Htext. by apply Hthrow, F2.
      * intros resp data Hnet Hok Hjson Hnull Hcand. by apply Hthrow, (F3 resp data).
  - assert (Hg : key_set (apiKey g) = false).
    { unfold key_available in Hkey. by apply orb_false_iff in Hkey as [? _]. }
    rewrite Hg in Hans. cbn [orb] in Hans.
    destruct (analyzeMistakes_unconfigured attempts problemInfo g st Hkey Hans)
      as (g' & -> & Hreq).
    split; [by intros _|split; [done|done]].
Qed.

End ClientProperties.

(** One attempt, a stored key and a network that is down: the failure of the
    request is returned as a result. *)
Lemma analyzeMistakes_never_throws_witness :
  fst (GeminiAPI.analyzeMistakes GeminiAPI.demo_ops GeminiAPI.offline
         (Some [GeminiAPI.demo_attempt]) (Some TakeUforward.demo_problem)
         (GeminiAPI.constructor, GeminiAPI.demo_keyed_storage))
  = Ok (GeminiAPI.AnalysisError "Failed to fetch").
Proof.
  destruct (analyzeMistakes_never_throws GeminiAPI.demo_ops GeminiAPI.offline
              (Some [GeminiAPI.demo_attempt]) (Some TakeUforward.demo_problem)
              GeminiAPI.constructor GeminiAPI.demo_keyed_storage)
    as [Hanswered _].
  destruct (Hanswered eq_refl) as (_ & _ & _ & Hfailures).
  edestruct (Hfailures GeminiAPI.demo_attempt []) as (Hrejected & _);
    [reflexivity|reflexivity|reflexivity|].
  apply Hrejected. reflexivity.
Defined.

(** C10, as stated, fails when no key is configured: with an empty list of
    attempts the error is "Gemini API key not configured", not
    "No attempts to analyze". *)
Lemma unconfigured_key_reported_first : ¬ GeminiAPI.analysis_failures_as_stated.
Proof.
  intros H.
  destruct (H GeminiAPI.demo_ops GeminiAPI.offline (Some []) None
              GeminiAPI.constructor ProblemTimer.demo_storage) as [_ Hempty].
  destruct (Hempty (or_intror eq_refl)) as [Herr _].
  vm_compute in Herr. discriminate Herr.
Qed.

(** [analyzeMistakes] can raise: a client without a key whose storage call
    fails passes the failure on. *)
Lemma failed_key_read_is_raised :
  fst (GeminiAPI.analyzeMistakes GeminiAPI.demo_ops GeminiAPI.offline
         (Some [GeminiAPI.demo_attempt]) (Some TakeUforward.demo_problem)
         (GeminiAPI.constructor, set_faults [true] GeminiAPI.demo_keyed_storage))
  = Throw "storage error".
Proof. reflexivity. Qed.

(** ** The pipeline of a successful submission *)

Section PipelineProperties.

Import TakeUforward.


Lemma after_reset_state_cleared (x : extractor) : cleared (after_reset_state x).
Proof. repeat split. Qed.

(** The restore step changes the cached code only, and only by taking stored
    fields; when it raises, nothing was changed. *)
Lemma restore_code_data_spec (env : page) (x : extractor) (st : storage) :
  ∃ o x' st',
    restore_code_data env (x, st) = (o, (x', st'))
    ∧ problem_data st' = problem_data st
    ∧ same_settings st st'
    ∧ (faults st = [] → o = Ok tt)
    ∧ (x' = x
       ∨ ∃ data, tuf_code_data st = Some data
           ∧ now env - cd_timestamp data < 60000
           ∧ (PUBLIC_CODE x = "" ∨ SELECTED_LANGUAGE x = "" ∨ PROBLEM_SLUG x = "")
           ∧ x' = set_code (str_or (cd_PROBLEM_SLUG data) (PROBLEM_SLUG x))
                           (str_or (cd_SELECTED_LANGUAGE data) (SELECTED_LANGUAGE x))
                           (str_or (cd_PUBLIC_CODE data) (PUBLIC_CODE x)) x).
Proof.
  destruct st as [pd tcd top gpe gak bsr fs].
  unfold restore_code_data, same_settings. unfold_monad. simpl.
  destruct (negb (truthy_str (PUBLIC_CODE x)) || negb (truthy_str (SELECTED_LANGUAGE x))
            || negb (truthy_str (PROBLEM_SLUG x))) eqn:Hmissing; simpl.
  2: { do 3 eexists. split; [reflexivity|]. simpl. repeat split; auto. }
  assert (Hempty : PUBLIC_CODE x = "" ∨ SELECTED_LANGUAGE x = "" ∨ PROBLEM_SLUG x = "").
  { unfold truthy_str in Hmissing.
    destruct (String.eqb_spec (PUBLIC_CODE x) ""); [by left|].
    destruct (String.eqb_spec (SELECTED_LANGUAGE x) ""); [by right; left|].
    destruct (String.eqb_spec (PROBLEM_SLUG x) ""); [by right; right|].
    discriminate. }
  assert (Hgoal : ∀ fs' : list bool,
    ∃ o x' st',
      match tcd with
      | Some data =>
          if negb (cd_timestamp data =? 0)
          then if now env - cd_timestamp data <? 60000
               then (Ok (),
                     (set_code (str_or (cd_PROBLEM_SLUG data) (PROBLEM_SLUG x))
                        (str_or (cd_SELECTED_LANGUAGE data) (SELECTED_LANGUAGE x))
                        (str_or (cd_PUBLIC_CODE data) (PUBLIC_CODE x)) x,
                      Storage pd tcd top gpe gak bsr fs'))
               else (Ok (), (x, Storage pd tcd top gpe gak bsr fs'))
          else (Ok (), (x, Storage pd tcd top gpe gak bsr fs'))
      | None => (Ok (), (x, Storage pd tcd top gpe gak bsr fs'))
      end = (o, (x', st'))
      ∧ problem_data st' = pd
      ∧ (tuf_code_data st' = tcd ∧ github_push_enabled st' = gpe
         ∧ gemini_api_key st' = gak ∧ faults st' = fs')
      ∧ o = Ok tt
      ∧ (x' = x
         ∨ ∃ data, tcd = Some data
             ∧ now env - cd_timestamp data < 60000
             ∧ (PUBLIC_CODE x = "" ∨ SELECTED_LANGUAGE x = "" ∨ PROBLEM_SLUG x = "")
             ∧ x' = set_code (str_or (cd_PROBLEM_SLUG data) (PROBLEM_SLUG x))
                             (str_or (cd_SELECTED_LANGUAGE data) (SELECTED_LANGUAGE x))
                             (str_or (cd_PUBLIC_CODE data) (PUBLIC_CODE x)) x)).
  { intros fs'. destruct tcd as [data|].
    - destruct (negb (cd_timestamp data =? 0)).
      + destruct (Z.ltb_spec (now env - cd_timestamp data) 60000).
        * do 3 eexists. split; [reflexivity|]. simpl. repeat split; auto.
          right. exists data. repeat split; auto.
        * do 3 eexists. split; [reflexivity|]. simpl. repeat split; auto.
      + do 3 eexists. split; [reflexivity|]. simpl. repeat split; auto.
    - do 3 eexists. split; [reflexivity|]. simpl. repeat split; auto. }
  destruct fs as [|[] fs]; simpl.
  - destruct (Hgoal []) as (o & x' & st' & Heq & Hpd & (H1 & H2 & H3 & H4) & Ho & Hx).
    exists o, x', st'. split.
    + rewrite <- Heq. destruct tcd as [data|]; simpl; [|reflexivity].
      destruct (negb (cd_timestamp data =? 0)); simpl; [|reflexivity].
      destruct (now env - cd_timestamp data <? 60000); reflexivity.
    + repeat split; auto.
  - do 3 eexists. split; [reflexivity|]. simpl.
    repeat split; auto; discriminate.
  - destruct (Hgoal fs) as (o & x' & st' & Heq & Hpd & (H1 & H2 & H3 & H4) & Ho & Hx).
    exists o, x', st'. split.
    + rewrite <- Heq. destruct tcd as [data|]; simpl; [|reflexivity].
      destruct (negb (cd_timestamp data =? 0)); simpl; [|reflexivity].
      destruct (now env - cd_timestamp data <? 60000); reflexivity.
    + repeat split; auto; discriminate.
Qed.

Lemma fetchQuestionDetails_this (env : page) (x : extractor) (st : storage) :
  ∃ q d f, fetchQuestionDetails env (x, st) = (Ok tt, (set_question q d f x, st)).
Proof.
  unfold fetchQuestionDetails. unfold_monad. simpl.
  destruct (heading env), (paragraph env); simpl; by do 3 eexists.
Qed.

(** [extractProblemInfo] never raises; it writes no problem record and
    touches neither the tracking fields nor the effects; the cached code is
    kept, or refilled from a stored submission younger than a minute when a
    cached field was empty; a problem it returns carries the cached code and
    has a title. *)
Lemma extractProblemInfo_spec (env : page) (x : extractor) (st : storage) :
  ∃ res x' st',
    extractProblemInfo env (x, st) = (Ok res, (x', st'))
    ∧ problem_data st' = problem_data st
    ∧ same_settings st st'
    ∧ tracking x' = tracking x
    ∧ effects x' = effects x
    ∧ currentPathname x' = currentPathname x
    ∧ (cached x' = cached x
       ∨ ∃ data, tuf_code_data st = Some data
           ∧ now env - cd_timestamp data < 60000
           ∧ (PUBLIC_CODE x = "" ∨ SELECTED_LANGUAGE x = "" ∨ PROBLEM_SLUG x = "")
           ∧ restored_from data x x')
    ∧ (∀ info, res = Some info →
         pi_code info = PUBLIC_CODE x' ∧ truthy_str (pi_code info) = true
         ∧ truthy_str (pi_title info) = true).
Proof.
  unfold extractProblemInfo, try_catch, mbind, M_bind, bind.
  destruct (fetchQuestionDetails_this env x st) as (q & d & f & ->).
  destruct (restore_code_data_spec env (set_question q d f x) st)
    as (o & x2 & st2 & -> & Hpd & Hset & _ & Hx2).
  assert (Hcached : cached x2 = cached x
       ∨ ∃ data, tuf_code_data st = Some data
           ∧ now env - cd_timestamp data < 60000
           ∧ (PUBLIC_CODE x = "" ∨ SELECTED_LANGUAGE x = "" ∨ PROBLEM_SLUG x = "")
           ∧ restored_from data x x2).
  { destruct Hx2 as [->|(data & H1 & H2 & H3 & ->)]; [by left|].
    right. exists data. repeat split; auto. }
  assert (Htrack : tracking x2 = tracking x ∧ effects x2 = effects x
                   ∧ currentPathname x2 = currentPathname x).
  { destruct Hx2 as [->|(data & _ & _ & _ & ->)]; repeat split. }
  destruct Htrack as (Ht & He & Hp).
  destruct o as [[]|msg]; simpl.
  - unfold get_this, modify_this, ret. simpl.
    destruct (truthy_str (QUES x2)) eqn:Hq; simpl.
    + destruct (truthy_str (PUBLIC_CODE x2)) eqn:Hc; simpl.
      * do 3 eexists. split; [reflexivity|]. simpl.
        split; [done|]. split; [done|]. split; [done|]. split; [done|].
        split; [done|]. split.
        -- destruct Hcached as [Hc1|(data & H1 & H2 & H3 & H4)]; [by left|].
           right. exists data. repeat split; auto; apply H4.
        -- intros info [= <-]. simpl. by repeat split.
      * do 3 eexists. split; [reflexivity|].
        split; [done|]. split; [done|]. repeat split; auto; done.
    + do 3 eexists. split; [reflexivity|].
      split; [done|]. split; [done|]. repeat split; auto; done.
  - unfold ret. do 3 eexists. split; [reflexivity|].
    split; [done|]. split; [done|]. repeat split; auto; done.
Qed.

Lemma same_settings_refl (st : storage) : same_settings st st.
Proof. by repeat split. Qed.

Lemma same_settings_trans (st1 st2 st3 : storage) :
  same_settings st1 st2 → same_settings st2 st3 → same_settings st1 st3.
Proof.
  intros (A1 & A2 & A3 & A4) (B1 & B2 & B3 & B4).
  repeat split; try congruence. auto.
Qed.

Lemma storeProblemData_settings (env : page) (info : problem_info) (solved : bool)
    (x : extractor) (st : storage) :
  ∃ res st',
    storeProblemData env info solved (x, st) = (Ok res, (x, st'))
    ∧ same_settings st st'.
Proof.
  destruct (storeProblemData_cases env info solved x st)
    as (Hx & Hcases & H1 & H2 & H3 & H4).
  destruct (storeProblemData env info solved (x, st)) as [o [x' st']].
  simpl in *. subst x'.
  assert (Hset : same_settings st st').
  { repeat split; auto. intros Hf. by destruct (H4 Hf). }
  destruct Hcases as [[-> _]|[-> _]]; by do 2 eexists.
Qed.

Lemma after_read_settings (st : storage) : same_settings st (after_read st).
Proof.
  destruct st as [pd tcd top gpe gak bsr fs]. unfold after_read. cbn [faults].
  destruct fs as [|b fs]; [apply same_settings_refl|].
  repeat split. discriminate.
Qed.

(** The analysis client, run from the pipeline, leaves the extractor alone
    and makes one storage call, to read the key. *)
Lemma client_run (env : page) (info : problem_info) (atts : list attempt)
    (x : extractor) (st : storage) :
  ∃ o, with_client (configured_analysis env atts info) (x, st)
       = (o, (x, after_read st)).
Proof.
  unfold with_client, configured_analysis. unfold mbind, M_bind, bind. cbn [fst snd].
  destruct (next_call_answers st) eqn:Hans.
  - destruct (initialize_this GeminiAPI.constructor st Hans) as (k & -> & _).
    destruct (GeminiAPI.key_set k) eqn:Hk; [|by eexists].
    destruct (analyzeMistakes_returns (string_ops env) (network env)
                (Some atts) (Some info)
                (GeminiAPI.Gemini k (GeminiAPI.requests GeminiAPI.constructor))
                (after_read st))
      as (res & g' & -> & _).
    { cbn [GeminiAPI.apiKey]. by rewrite Hk. }
    cbn [GeminiAPI.apiKey]. rewrite Hk. by eexists.
  - rewrite (initialize_fails GeminiAPI.constructor st Hans). by eexists.
Qed.

(** The analysis stage never raises; it keeps the cached code and the
    fields of the latch. *)
Lemma analysis_stage_spec (env : page) (info : problem_info)
    (x : extractor) (st : storage) :
  ∃ x' st',
    analysis_stage env info (x, st) = (Ok tt, (x', st'))
    ∧ same_settings st st'
    ∧ cached x' = cached x
    ∧ latch_fields x' = latch_fields x.
Proof.
  unfold analysis_stage, try_catch. unfold mbind, M_bind, bind, get_this.
  cbn [fst snd].
  destruct (client_run env info
              (List.filter (λ a, truthy_str (a_code a) && (10 <? str_length (a_code a)))
                           (attempts x)) x st) as (o & ->).
  pose proof (after_read_settings st) as Hread.
  destruct o as [[[analysis tags|err]|]|msg].
  - unfold modify_this, ret. cbn [fst snd].
    destruct (storeProblemData_settings env info true
                (set_ai (Some analysis) tags
                   (emit (AnalysisRequested
                      (List.filter
                         (λ a, truthy_str (a_code a) && (10 <? str_length (a_code a)))
                         (attempts x))) x)) (after_read st))
      as (r & st' & -> & Hset).
    do 2 eexists. split; [reflexivity|]. split; [|done].
    by eapply same_settings_trans.
  - do 2 eexists. split; [reflexivity|]. split; done.
  - do 2 eexists. split; [reflexivity|]. split; done.
  - do 2 eexists. split; [reflexivity|]. split; done.
Qed.

(** The backend stage never raises, whatever the backend answers, and only
    records the push and the toast. *)
Lemma backend_stage_spec (env : page) (info : problem_info)
    (x : extractor) (st : storage) :
  ∃ x', backend_stage env info (x, st) = (Ok tt, (x', st))
        ∧ cached x' = cached x
        ∧ latch_fields x' = latch_fields x.
Proof.
  unfold backend_stage. unfold_monad. simpl.
  destruct (backend env) as [[message|error]|msg]; simpl;
    destruct (toast env); simpl; by eexists.
Qed.

(** The GitHub stage when the storage answers. *)
Lemma github_stage_spec (env : page) (info : problem_info)
    (x : extractor) (st : storage) :
  faults st = [] →
  github_stage env info (x, st)
  = match github_push_enabled st with
    | Some false => (Ok tt, (after_reset_state x, st))
    | _ =>
        match github env with
        | Ok GitHubPushed =>
            (Ok tt, (after_reset_state (emit (GitHubPush info) x),
                     set_tuf_code_data None st))
        | Ok (GitHubFailed _) => (Ok tt, (emit (GitHubPush info) x, st))
        | Throw e => (Throw e, (emit (GitHubPush info) x, st))
        end
    end.
Proof.
  destruct st as [pd tcd top gpe gak bsr fs]. simpl. intros ->.
  unfold github_stage. unfold_monad. simpl.
  destruct gpe as [[]|]; simpl; try reflexivity;
    destruct (github env) as [[|error]|msg]; reflexivity.
Qed.


(** The pipeline after a complete extraction: every stage before the GitHub
    stage returns and keeps the cached code and the fields of the latch. *)
Lemma persist_and_push_spec (env : page) (sub : submission) (info : problem_info)
    (x : extractor) (st : storage) :
  ∃ x' st' info',
    persist_and_push env sub info (x, st) = github_stage env info' (x', st')
    ∧ same_settings st st'
    ∧ cached x' = cached x
    ∧ latch_fields x' = latch_fields x.
Proof.
  unfold persist_and_push. unfold mbind at 1 2, M_bind, bind, modify_this.
  cbn [fst snd].
  set (info' := set_pi_stats _ info).
  destruct (storeProblemData_settings env info' true
              (set_currentProblem (Some info') x) st) as (r & st1 & -> & Hset1).
  unfold mbind at 1 2, M_bind, bind, get_this. cbn [fst snd].
  assert (Hstage : ∃ x2 st2,
    when_ (shouldAnalyzeWithGemini (set_currentProblem (Some info') x))
      (analysis_stage env info') (set_currentProblem (Some info') x, st1)
    = (Ok tt, (x2, st2))
    ∧ same_settings st1 st2 ∧ cached x2 = cached x
    ∧ latch_fields x2 = latch_fields x).
  { unfold when_. destruct (shouldAnalyzeWithGemini _).
    - destruct (analysis_stage_spec env info' (set_currentProblem (Some info') x) st1)
        as (x2 & st2 & -> & Hset2 & Hc & Hl). by do 2 eexists.
    - do 2 eexists. split; [reflexivity|]. split; [apply same_settings_refl|done]. }
  destruct Hstage as (x2 & st2 & -> & Hset2 & Hc2 & Hl2).
  unfold mbind, M_bind, bind.
  destruct (backend_stage_spec env info' x2 st2) as (x3 & -> & Hc3 & Hl3).
  exists x3, st2, info'. split; [reflexivity|]. split.
  - by eapply same_settings_trans.
  - split; congruence.
Qed.

Lemma onMessage_accepted (env : page) (sub : submission) (s : extractor * storage) :
  sub_success sub = Some true →
  onMessage env (SUBMISSION_RESPONSE sub) s = handleSuccessfulSubmission env sub s.
Proof. intros Hs. unfold onMessage. by rewrite bool_decide_eq_true_2. Qed.

(** When extraction is incomplete the pipeline does what the extraction did,
    and nothing more. *)
Lemma handleSuccessfulSubmission_aborts (env : page) (sub : submission)
    (s : extractor * storage) :
  extraction_incomplete env s →
  exec (handleSuccessfulSubmission env sub) s = snd (extractProblemInfo env s).
Proof.
  destruct s as [x st]. unfold extraction_incomplete.
  unfold exec, handleSuccessfulSubmission, try_catch, mbind, M_bind, bind.
  destruct (extractProblemInfo_spec env x st) as (res & x1 & st1 & -> & _).
  simpl. intros [[= ->]|(info & [= ->] & Hlen)]; [reflexivity|].
  apply Z.ltb_lt in Hlen. rewrite Hlen, orb_true_r. reflexivity.
Qed.

(** C6, as amended: if extraction on a successful submission yields no title
    or no code of at least ten characters, the pipeline aborts before the
    persist stage: no problem record is written, no later stage (analysis,
    backend push, GitHub push) runs, and the attempts, the counters, the
    latch, the tries and the analysis results are left unchanged. The cached
    code, language and problem id are left unchanged too, unless one of them
    was empty and a submission less than a minute old is stored under
    [tuf_code_data]: then each cached field is replaced by the stored one
    when the stored one is not empty. *)
Theorem abort_keeps_tracking_state (env : page) (sub : submission)
    (s : extractor * storage) :
  sub_success sub = Some true →
  extraction_incomplete env s →
  let s' := exec (onMessage env (SUBMISSION_RESPONSE sub)) s in
  problem_data (snd s') = problem_data (snd s)
  ∧ effects (fst s') = effects (fst s)
  ∧ tracking (fst s') = tracking (fst s)
  ∧ (cached (fst s') = cached (fst s)
     ∨ ∃ data, tuf_code_data (snd s) = Some data
         ∧ now env - cd_timestamp data < 60000
         ∧ (PUBLIC_CODE (fst s) = "" ∨ SELECTED_LANGUAGE (fst s) = ""
            ∨ PROBLEM_SLUG (fst s) = "")
         ∧ restored_from data (fst s) (fst s')).
Proof.
  intros Hsuccess Hincomplete s'. subst s'.
  unfold exec at 1 2 3 4 5. rewrite (onMessage_accepted env sub s Hsuccess).
  fold (exec (handleSuccessfulSubmission env sub) s).
  rewrite (handleSuccessfulSubmission_aborts env sub s Hincomplete).
  destruct s as [x st].
  destruct (extractProblemInfo_spec env x st)
    as (res & x1 & st1 & -> & Hpd & _ & Ht & He & _ & Hc & _).
  simpl. by repeat split.
Qed.

(** An accepted submission on a page whose heading is not rendered. *)
Lemma abort_keeps_tracking_state_witness :
  let s := demo_submitted in
  let s' := exec (onMessage demo_untitled_page (SUBMISSION_RESPONSE demo_accepted)) s in
  problem_data (snd s') = problem_data (snd s)
  ∧ effects (fst s') = effects (fst s)
  ∧ tracking (fst s') = tracking (fst s)
  ∧ (cached (fst s') = cached (fst s)
     ∨ ∃ data, tuf_code_data (snd s) = Some data
         ∧ now demo_untitled_page - cd_timestamp data < 60000
         ∧ (PUBLIC_CODE (fst s) = "" ∨ SELECTED_LANGUAGE (fst s) = ""
            ∨ PROBLEM_SLUG (fst s) = "")
         ∧ restored_from data (fst s) (fst s')).
Proof.
  apply (abort_keeps_tracking_state demo_untitled_page demo_accepted demo_submitted).
  - reflexivity.
  - left. reflexivity.
Defined.

(** C6, as stated, fails for the cached code: a script that holds no code in
    memory takes the code stored a second earlier before it finds that the
    title is missing and aborts. *)
Lemma abort_restores_cached_code : ¬ abort_leaves_state_unchanged.
Proof.
  intros H.
  destruct (H demo_untitled_page demo_accepted demo_reloaded eq_refl)
    as (_ & _ & _ & _ & _ & _ & _ & Hcode & _).
  - left. reflexivity.
  - vm_compute in Hcode. discriminate Hcode.
Qed.

(** C5, as amended: on a successful submission whose extraction yields a
    title and code of at least ten characters, and with the storage
    answering, the transient attempt state (tries, cached code, language and
    problem id, attempts, run counters, latch, analysis results) is cleared
    if and only if the GitHub push succeeds or the push toggle is disabled.
    This holds whatever the backend answers, so a backend failure never
    prevents the reset, and a GitHub push that fails or raises leaves the
    transient state uncleared. *)
Theorem cleared_iff_pushed_or_disabled_after_extraction
    (env : page) (sub : submission) (s : extractor * storage) (info : problem_info) :
  sub_success sub = Some true →
  fst (extractProblemInfo env s) = Ok (Some info) →
  10 ≤ str_length (pi_code info) →
  faults (snd s) = [] →
  let s' := exec (onMessage env (SUBMISSION_RESPONSE sub)) s in
  cleared (fst s') ↔
    (github env = Ok GitHubPushed ∨ github_push_enabled (snd s) = Some false).
Proof.
  intros Hsuccess Hextract Hlen Hfaults s'. subst s'.
  unfold exec. rewrite (onMessage_accepted env sub s Hsuccess).
  destruct s as [x st]. simpl in Hfaults.
  unfold handleSuccessfulSubmission, try_catch, mbind, M_bind, bind.
  destruct (extractProblemInfo_spec env x st)
    as (res & x1 & st1 & Heq & _ & Hset1 & _ & _ & _ & _ & Hinfo).
  rewrite Heq in Hextract |- *. simpl in Hextract. injection Hextract as ->.
  destruct (Hinfo info eq_refl) as (Hcode & Htruthy & _).
  rewrite Htruthy. simpl.
  assert (Hge : (str_length (pi_code info) <? 10) = false) by (apply Z.ltb_ge; lia).
  rewrite Hge.
  destruct Hset1 as (_ & Hgpe1 & _ & Hf1).
  destruct (persist_and_push_spec env sub info x1 st1)
    as (x3 & st3 & info' & -> & (_ & Hgpe3 & _ & Hf3) & Hc3 & _).
  rewrite (github_stage_spec env info' x3 st3 (Hf3 (Hf1 Hfaults))).
  rewrite Hgpe3, Hgpe1.
  assert (Hkept : ∀ e, ¬ cleared (emit e x3)).
  { intros e (_ & Hpc & _). simpl in Hpc.
    assert (Hpc3 : PUBLIC_CODE x3 = PUBLIC_CODE x1)
      by (unfold cached in Hc3; congruence).
    rewrite Hpc3, <- Hcode in Hpc. rewrite Hpc in Htruthy. discriminate Htruthy. }
  destruct (github_push_enabled st) as [[]|] eqn:Hgpe; simpl.
  - destruct (github env) as [[|error]|msg]; simpl.
    + split; [by left; reflexivity|intros _; apply after_reset_state_cleared].
    + split; [intros Hc; by destruct (Hkept _ Hc)|by intros [|]].
    + split; [intros Hc; by destruct (Hkept _ Hc)|by intros [|]].
  - split; [by right|intros _; apply after_reset_state_cleared].
  - destruct (github env) as [[|error]|msg]; simpl.
    + split; [by left; reflexivity|intros _; apply after_reset_state_cleared].
    + split; [intros Hc; by destruct (Hkept _ Hc)|by intros [|]].
    + split; [intros Hc; by destruct (Hkept _ Hc)|by intros [|]].
Qed.

(** An accepted submission with the backend failing and GitHub accepting
    the push. *)
Lemma cleared_iff_pushed_or_disabled_after_extraction_witness :
  let s' := exec (onMessage demo_page (SUBMISSION_RESPONSE demo_accepted))
                 demo_submitted in
  cleared (fst s') ↔
    (github demo_page = Ok GitHubPushed
     ∨ github_push_enabled (snd demo_submitted) = Some false).
Proof.
  apply (cleared_iff_pushed_or_disabled_after_extraction demo_page demo_accepted
           demo_submitted demo_problem).
  - reflexivity.
  - reflexivity.
  - vm_compute. discriminate.
  - reflexivity.
Defined.

(** C5, as stated, fails when extraction is incomplete: with the push toggle
    disabled and no title on the page the pipeline aborts and the transient
    state stays as it was. *)
Lemma disabled_toggle_without_title_keeps_state : ¬ cleared_iff_pushed_or_disabled.
Proof.
  intros H.
  destruct (H demo_untitled_page demo_accepted demo_submitted_push_disabled eq_refl)
    as [_ Hclear].
  destruct (Hclear (or_intror eq_refl)) as (Htries & _).
  vm_compute in Htries. discriminate Htries.
Qed.

End PipelineProperties.

(** ** The latch between two resets *)

Section LatchProperties.

Import TakeUforward.








End LatchProperties.
